(** * chrome-cli: the session daemon of [src/cli.ts]

    A shallow embedding of the daemon half of [src/cli.ts] (the express
    handlers, [launchBrowser] with [startChromeWithDebugging],
    [isPageValid], [getOrCreatePage] and the three page event handlers),
    followed by the properties of the session state that the specification
    states about them.

    Conventions of the embedding.
    - The module-level [state] object is the record [SessionState]; every
      handler is a function from the state before to a reply and the state
      after.  A handler body runs from its entry to its reply as one step;
      the section on interleaved handlers cuts the bodies at their [await]s.
    - Everything the remote browser answers during one handler run (whether
      an attach succeeds, whether a page still evaluates, which tabs are
      open, the clock) is read from a [Remote] record, so that the handlers
      are ordinary functions.
    - A rejected promise / thrown exception is [inl (Thrown msg)], where
      [msg] is the text [String(err)] would print.  An ['error'] event that
      nobody listens to is [inl (Uncaught msg)]: no [catch] sees it, node
      prints it and the daemon process exits.
    - [state.pages] is a JavaScript [Map], whose iteration order is the
      insertion order: it is an association list ([JsMap]).  The two buffer
      maps are only ever read by key, they are [gmap]s. *)

From stdpp Require Import gmap strings list pretty.
From Stdlib Require Import ZArith Ascii.

Local Open Scope string_scope.
Local Open Scope list_scope.
Local Open Scope nat_scope.

(** ** JavaScript values *)

(** [x] as a condition: [undefined]/[null] and the empty string are falsy. *)
Definition truthy (x : option string) : bool :=
  match x with
  | Some s => bool_decide (s ≠ "")
  | None => false
  end.

(** [x || y] on possibly-absent strings. *)
Definition js_or (x y : option string) : option string :=
  if truthy x then x else y.

(** ** [Map<string, V>] with insertion order *)

Module JsMap.
Section js_map.
Context {V : Type}.
Implicit Types (m : list (string * V)) (k : string) (v : V).

Fixpoint get m k : option V :=
  match m with
  | [] => None
  | (k', v) :: m' => if decide (k' = k) then Some v else get m' k
  end.

Definition has m k : bool :=
  match get m k with Some _ => true | None => false end.

(** [set] on a key already present keeps the entry where it is. *)
Fixpoint set m k v : list (string * V) :=
  match m with
  | [] => [(k, v)]
  | (k', v') :: m' =>
      if decide (k' = k) then (k, v) :: m' else (k', v') :: set m' k v
  end.

Fixpoint delete m k : list (string * V) :=
  match m with
  | [] => []
  | (k', v') :: m' =>
      if decide (k' = k) then delete m' k else (k', v') :: delete m' k
  end.

Definition keys m : list string := m.*1.

(** [m.keys().next().value] *)
Definition first_key m : option string := head (keys m).

Definition size m : nat := length m.
End js_map.
End JsMap.

(** ** The session state *)

(** A puppeteer [Page] or [Browser] object is a handle on a remote tab or
    connection; the handle itself carries no data. *)
Definition Page := nat.
Definition Browser := nat.

Record ConsoleMessage := {
  msg_type : string;
  msg_text : string;
  msg_timestamp : Z
}.

Record NetworkRequest := {
  req_url : string;
  req_method : string;
  req_status : Z;
  req_type : string
}.

Inductive EventKind := Console | Request | Response.

(** One [page.on(kind, handler)] call of [getOrCreatePage]; the handler is
    the closure over [newPageId]. *)
Record Listener := {
  on_page : Page;
  on_kind : EventKind;
  on_newPageId : string
}.

(** [interface SessionState] and the [state] object.  [listeners] is not a
    field of the source record: the handlers registered with [page.on] live
    on the page objects, and are collected here in registration order. *)
Record SessionState := {
  browser : option Browser;
  pages : list (string * Page);
  currentPageId : option string;
  consoleMessages : gmap string (list ConsoleMessage);
  networkRequests : gmap string (list NetworkRequest);
  listeners : list Listener
}.

Definition state : SessionState := {|
  browser := None;
  pages := [];
  currentPageId := None;
  consoleMessages := ∅;
  networkRequests := ∅;
  listeners := []
|}.

Definition with_browser (b : option Browser) (s : SessionState) :=
  {| browser := b; pages := pages s; currentPageId := currentPageId s;
     consoleMessages := consoleMessages s;
     networkRequests := networkRequests s; listeners := listeners s |}.

Definition with_pages (p : list (string * Page)) (s : SessionState) :=
  {| browser := browser s; pages := p; currentPageId := currentPageId s;
     consoleMessages := consoleMessages s;
     networkRequests := networkRequests s; listeners := listeners s |}.

Definition with_currentPageId (c : option string) (s : SessionState) :=
  {| browser := browser s; pages := pages s; currentPageId := c;
     consoleMessages := consoleMessages s;
     networkRequests := networkRequests s; listeners := listeners s |}.

Definition with_consoleMessages (c : gmap string (list ConsoleMessage))
    (s : SessionState) :=
  {| browser := browser s; pages := pages s; currentPageId := currentPageId s;
     consoleMessages := c;
     networkRequests := networkRequests s; listeners := listeners s |}.

Definition with_networkRequests (n : gmap string (list NetworkRequest))
    (s : SessionState) :=
  {| browser := browser s; pages := pages s; currentPageId := currentPageId s;
     consoleMessages := consoleMessages s;
     networkRequests := n; listeners := listeners s |}.

Definition with_listeners (l : list Listener) (s : SessionState) :=
  {| browser := browser s; pages := pages s; currentPageId := currentPageId s;
     consoleMessages := consoleMessages s;
     networkRequests := networkRequests s; listeners := l |}.

(** ** Event capture buffers (the three handlers of [getOrCreatePage]) *)

Definition capacity : nat := 1000.

(** [buf.push(x); if (buf.length > 1000) buf.shift();] *)
Definition push_capped {A : Type} (buf : list A) (x : A) : list A :=
  let buf' := buf ++ [x] in
  if decide (capacity < length buf') then tail buf' else buf'.

(** [page.on('console', msg => ...)].  [state.consoleMessages.get(id) || []]
    is the stored array, or a fresh one that is pushed to and dropped. *)
Definition on_console (newPageId : string) (type text : string) (now : Z)
    (s : SessionState) : SessionState :=
  match consoleMessages s !! newPageId with
  | None => s
  | Some messages =>
      let entry := {| msg_type := type; msg_text := text;
                      msg_timestamp := now |} in
      with_consoleMessages
        (<[newPageId := push_capped messages entry]> (consoleMessages s)) s
  end.

(** [page.on('request', req => ...)] *)
Definition on_request (newPageId : string) (url method type : string)
    (s : SessionState) : SessionState :=
  match networkRequests s !! newPageId with
  | None => s
  | Some requests =>
      let entry := {| req_url := url; req_method := method; req_status := 0;
                      req_type := type |} in
      with_networkRequests
        (<[newPageId := push_capped requests entry]> (networkRequests s)) s
  end.

(** [r => r.url === res.url() && r.status === 0] *)
Definition pending_for (url : string) (r : NetworkRequest) : bool :=
  bool_decide (req_url r = url) && bool_decide (req_status r = 0%Z).

Definition set_status (status : Z) (r : NetworkRequest) : NetworkRequest :=
  {| req_url := req_url r; req_method := req_method r; req_status := status;
     req_type := req_type r |}.

(** [const req = requests.find(p); if (req) req.status = status;] on the
    array itself: [Array.prototype.find] walks from index 0 and stops at the
    first element that satisfies the predicate. *)
Fixpoint find_and_set (url : string) (status : Z)
    (requests : list NetworkRequest) : list NetworkRequest :=
  match requests with
  | [] => []
  | r :: rest =>
      if pending_for url r then set_status status r :: rest
      else r :: find_and_set url status rest
  end.

(** [page.on('response', res => ...)] *)
Definition on_response (newPageId : string) (url : string) (status : Z)
    (s : SessionState) : SessionState :=
  match networkRequests s !! newPageId with
  | None => s
  | Some requests =>
      with_networkRequests
        (<[newPageId := find_and_set url status requests]> (networkRequests s))
        s
  end.

(** ** The remote browser, as seen during one handler run *)

(** What [spawn(CHROME_PATH, ...)] does: it returns a child process, it
    throws, or it returns a child that emits ['error'] on the next tick
    because the program could not be started ([ENOENT], [EACCES], ...). *)
Inductive Spawn :=
| Spawned
| SpawnThrows (msg : string)
| SpawnError (msg : string).

Record Remote := {
  (** [puppeteer.connect(...)] at attempt 0 and 1; [None] when it rejects *)
  puppeteer_connect : nat → option Browser;
  (** [isChromeRunning()]: does [pgrep -x "Google Chrome"] exit with 0 *)
  isChromeRunning : bool;
  (** [existsSync(profileDir)] for [CONFIG_DIR/chrome-profile] *)
  profileDir_exists : bool;
  (** [mkdirSync(profileDir, {recursive: true})]: [Some msg] when it throws *)
  mkdirSync_profileDir : option string;
  (** [spawn(CHROME_PATH, [...])]; the argument is [usePersonalProfile],
      which selects the [--user-data-dir] that is passed *)
  spawn_chrome : bool → Spawn;
  (** does [page.evaluate('1')] resolve *)
  page_evaluate_ok : Page → bool;
  (** [browser.pages()], each page with its [url()] *)
  browser_pages : string + list (Page * string);
  browser_newPage : string + Page;
  Date_now : Z;
  page_url : Page → string;
  (** [page.goto], [page.close], [page.bringToFront] and the page operation
      of a command: [Some msg] when the promise rejects with [msg] *)
  page_goto : Page → string → option string;
  page_close : Page → option string;
  page_bringToFront : Page → option string;
  page_operation : Page → option string
}.

(** ** Asynchronous functions: state and exceptions *)

(** How a function ends when it does not return. *)
Inductive Exn :=
(** an exception, or a rejected promise that is awaited *)
| Thrown (msg : string)
(** an ['error'] event without listener: the emitter throws it outside
    every [try], and the process exits *)
| Uncaught (msg : string).

Definition Async (A : Type) : Type :=
  SessionState → (Exn + A) * SessionState.

#[global] Instance Async_ret : MRet Async := λ A a s, (inr a, s).

#[global] Instance Async_bind : MBind Async := λ A B f m s,
  match m s with
  | (inl e, s') => (inl e, s')
  | (inr a, s') => f a s'
  end.

Definition raise {A : Type} (e : Exn) : Async A := λ s, (inl e, s).

Definition throw {A : Type} (e : string) : Async A := raise (Thrown e).

(** Awaiting a remote promise that resolved or rejected. *)
Definition await {A : Type} (outcome : string + A) : Async A :=
  match outcome with
  | inl e => throw e
  | inr a => mret a
  end.

Definition await_void (outcome : option string) : Async unit :=
  match outcome with
  | Some e => throw e
  | None => mret ()
  end.

Definition read : Async SessionState := λ s, (inr s, s).

Definition update (f : SessionState → SessionState) : Async unit :=
  λ s, (inr (), f s).

(** ** Browser connection *)

(** [startChromeWithDebugging]: Chrome is started on the personal profile
    unless a Chrome is running already, in which case the daemon's own
    profile directory is used, and created if it is missing.  [mkdirSync]
    and [spawn] may throw.  The child is given no ['error'] listener: when
    the program cannot be started the event is emitted while the function
    waits its two seconds, and ends the process.  The function reads and
    writes nothing of the session. *)
Definition startChromeWithDebugging (r : Remote) : Exn + unit :=
  let usePersonalProfile := negb (isChromeRunning r) in
  match (if negb usePersonalProfile && negb (profileDir_exists r)
         then mkdirSync_profileDir r else None) with
  | Some e => inl (Thrown e)
  | None =>
      match spawn_chrome r usePersonalProfile with
      | Spawned => inr ()
      | SpawnThrows e => inl (Thrown e)
      | SpawnError e => inl (Uncaught e)
      end
  end.

(** The [for (let attempt = 0; attempt < 2; attempt++)] loop of
    [launchBrowser]: [break] on the first attach that succeeds; the [catch]
    of attempt 0 awaits [startChromeWithDebugging()], whose exception leaves
    the loop and [launchBrowser]; the [catch] of attempt 1 does nothing.
    The result is the browser attached to, if any. *)
Fixpoint connect_loop (r : Remote) (attempt remaining : nat)
    : Exn + option Browser :=
  match remaining with
  | 0 => inr None
  | S remaining' =>
      match puppeteer_connect r attempt with
      | Some b => inr (Some b)
      | None =>
          match (if decide (attempt = 0) then startChromeWithDebugging r
                 else inr ()) with
          | inl e => inl e
          | inr _ => connect_loop r (S attempt) remaining'
          end
      end
  end.

Definition connect_failed : string :=
  "Error: Failed to connect to Chrome. Please start Chrome with: /Applications/Google\ Chrome.app/Contents/MacOS/Google\ Chrome --remote-debugging-port=9222".

Definition launchBrowser (r : Remote) : Async Browser :=
  s ← read;
  match browser s with
  | Some b => mret b
  | None =>
      match connect_loop r 0 2 with
      | inr (Some b) => update (with_browser (Some b));; mret b
      | inr None => throw connect_failed
      | inl e => raise e
      end
  end.

(** The handler that [launchBrowser] registers with
    [state.browser.on('disconnected', ...)]. *)
Definition on_disconnected (s : SessionState) : SessionState :=
  with_currentPageId None (with_pages [] (with_browser None s)).

(** ** Page registry *)

Definition isPageValid (r : Remote) (page : Page) : bool :=
  page_evaluate_ok r page.

(** [`page_${Date.now()}`] *)
Definition page_id (now : Z) : string := "page_" +:+ pretty now.

(** [url === 'about:blank' || url === 'chrome://newtab/' ||
     url.startsWith('chrome://newtab')] *)
Definition reusable (p : Page * string) : bool :=
  bool_decide (p.2 = "about:blank") || bool_decide (p.2 = "chrome://newtab/")
  || String.prefix "chrome://newtab" p.2.

(** The three [page.on] calls of [getOrCreatePage]. *)
Definition subscriptions (page : Page) (newPageId : string) : list Listener :=
  [ {| on_page := page; on_kind := Console; on_newPageId := newPageId |};
    {| on_page := page; on_kind := Request; on_newPageId := newPageId |};
    {| on_page := page; on_kind := Response; on_newPageId := newPageId |} ].

(** [state.pages.set(id, page); state.currentPageId = id;
     state.consoleMessages.set(id, []); state.networkRequests.set(id, []);] *)
Definition register (id : string) (page : Page) (s : SessionState)
    : SessionState :=
  with_networkRequests (<[id := []]> (networkRequests s))
    (with_consoleMessages (<[id := []]> (consoleMessages s))
       (with_currentPageId (Some id)
          (with_pages (JsMap.set (pages s) id page) s))).

(** First [if] of [getOrCreatePage]: the explicit identifier. *)
Definition resolve_explicit (r : Remote) (pageId : option string)
    : Async (option (Page * string)) :=
  s ← read;
  match pageId with
  | Some id =>
      match truthy pageId, JsMap.get (pages s) id with
      | true, Some page =>
          if isPageValid r page then mret (Some (page, id))
          else update (with_pages (JsMap.delete (pages s) id));; mret None
      | _, _ => mret None
      end
  | None => mret None
  end.

(** Second [if] of [getOrCreatePage]: the current page. *)
Definition resolve_current (r : Remote) : Async (option (Page * string)) :=
  s ← read;
  match currentPageId s with
  | Some id =>
      match truthy (currentPageId s), JsMap.get (pages s) id with
      | true, Some page =>
          if isPageValid r page then mret (Some (page, id))
          else
            update (with_pages (JsMap.delete (pages s) id));;
            update (with_currentPageId None);;
            mret None
      | _, _ => mret None
      end
  | None => mret None
  end.

(** Rest of [getOrCreatePage]: reuse a blank tab or open one, register it
    and subscribe to its events. *)
Definition create_page (r : Remote) : Async (Page * string) :=
  existingPages ← await (browser_pages r);
  page ← match find reusable existingPages with
          | Some reusablePage => mret reusablePage.1
          | None => await (browser_newPage r)
          end;
  let newPageId := page_id (Date_now r) in
  update (register newPageId page);;
  s ← read;
  update (with_listeners (listeners s ++ subscriptions page newPageId));;
  mret (page, newPageId).

Definition getOrCreatePage (r : Remote) (pageId : option string)
    : Async (Page * string) :=
  _ ← launchBrowser r;
  explicit ← resolve_explicit r pageId;
  match explicit with
  | Some found => mret found
  | None =>
      current ← resolve_current r;
      match current with
      | Some found => mret found
      | None => create_page r
      end
  end.

(** ** Command handlers *)

(** What a handler sends: [res.json({success: true, ...body})], or
    [res.status(code).json({success: false, error})]; nothing at all when
    the process exits before the handler gets there. *)
Inductive Reply (A : Type) :=
| Success (body : A)
| Failure (code : nat) (error : string)
| NoReply.
Arguments Success {A} body.
Arguments Failure {A} code error.
Arguments NoReply {A}.

Definition not_found {A : Type} : Reply A := Failure 404 "Page not found".

(** What becomes of a handler whose body ended with [e]: the [catch] of the
    handler answers an exception with status 500; an uncaught ['error']
    event is not an exception of the body, and no reply is sent. *)
Definition on_exn {A : Type} (e : Exn) : Reply A :=
  match e with
  | Thrown msg => Failure 500 msg
  | Uncaught _ => NoReply
  end.

(** [try { body } catch (err) { res.status(500).json({success: false,
    error: String(err)}) }]: what the body did to the state stays done.
    When the process exits the state is the one it had at that point. *)
Definition handler {A : Type} (body : Async (Reply A)) (s : SessionState)
    : Reply A * SessionState :=
  match body s with
  | (inr reply, s') => (reply, s')
  | (inl e, s') => (on_exn e, s')
  end.

(** [/navigate], [/screenshot], [/click], [/fill], [/evaluate], [/wait] and
    [/snapshot]: each calls [getOrCreatePage()] without an argument, runs its
    operation on the page, and replies with the page identifier. *)
Definition page_command (r : Remote) : SessionState → Reply string * SessionState :=
  handler (
    found ← getOrCreatePage r None;
    await_void (page_operation r found.1);;
    mret (Success found.2)).

(** [app.get('/console')]; [page] is [req.query.page]. *)
Definition get_console (page : option string)
    : SessionState → Reply (option string * list ConsoleMessage) * SessionState :=
  handler (
    s ← read;
    let id := js_or page (currentPageId s) in
    let messages :=
      match id with
      | Some i => if truthy id then default [] (consoleMessages s !! i) else []
      | None => []
      end in
    mret (Success (id, messages))).

(** [app.get('/network')] *)
Definition get_network (page : option string)
    : SessionState → Reply (option string * list NetworkRequest) * SessionState :=
  handler (
    s ← read;
    let id := js_or page (currentPageId s) in
    let requests :=
      match id with
      | Some i => if truthy id then default [] (networkRequests s !! i) else []
      | None => []
      end in
    mret (Success (id, requests))).

(** [app.post('/select-page')]; [pageId] is [req.body.pageId]. *)
Definition select_page (r : Remote) (pageId : option string)
    : SessionState → Reply string * SessionState :=
  handler (
    s ← read;
    match pageId with
    | Some id =>
        match JsMap.get (pages s) id with
        | Some page =>
            update (with_currentPageId (Some id));;
            await_void (page_bringToFront r page);;
            mret (Success id)
        | None => mret not_found
        end
    | None => mret not_found
    end).

(** [app.post('/new-page')]; the reply carries [pageId] and [page.url()]. *)
Definition new_page (r : Remote) (url : option string)
    : SessionState → Reply (string * string) * SessionState :=
  handler (
    _ ← launchBrowser r;
    page ← await (browser_newPage r);
    let pageId := page_id (Date_now r) in
    update (register pageId page);;
    match url with
    | Some u => if truthy url then await_void (page_goto r page u) else mret ()
    | None => mret ()
    end;;
    mret (Success (pageId, page_url r page))).

(** [app.post('/close-page')] *)
Definition close_page (r : Remote) (pageId : option string)
    : SessionState → Reply unit * SessionState :=
  handler (
    s ← read;
    let id := js_or pageId (currentPageId s) in
    match id with
    | Some i =>
        match truthy id, JsMap.get (pages s) i with
        | true, Some page =>
            await_void (page_close r page);;
            update (λ s, with_pages (JsMap.delete (pages s) i) s);;
            update (λ s, with_consoleMessages (delete i (consoleMessages s)) s);;
            update (λ s, with_networkRequests (delete i (networkRequests s)) s);;
            s' ← read;
            (if decide (currentPageId s' = Some i)
             then update (with_currentPageId
                            (js_or (JsMap.first_key (pages s')) None))
             else mret ());;
            mret (Success ())
        | _, _ => mret not_found
        end
    | None => mret not_found
    end).

(** ** Page events *)

Inductive PageEvent :=
| ConsoleEvent (type text : string) (now : Z)
| RequestEvent (url method resourceType : string)
| ResponseEvent (url : string) (status : Z).

Definition kind_of (e : PageEvent) : EventKind :=
  match e with
  | ConsoleEvent _ _ _ => Console
  | RequestEvent _ _ _ => Request
  | ResponseEvent _ _ => Response
  end.

#[global] Instance EventKind_eq_dec : EqDecision EventKind.
Proof. solve_decision. Defined.

(** The handler closed over [newPageId], applied to an event of its kind. *)
Definition handle (newPageId : string) (e : PageEvent)
    : SessionState → SessionState :=
  match e with
  | ConsoleEvent type text now => on_console newPageId type text now
  | RequestEvent url method type => on_request newPageId url method type
  | ResponseEvent url status => on_response newPageId url status
  end.

(** The page object emits [e]: its listeners for that kind run in the order
    they were registered. *)
Definition emit (page : Page) (e : PageEvent) (s : SessionState)
    : SessionState :=
  foldl (λ s l,
           if decide (on_page l = page ∧ on_kind l = kind_of e)
           then handle (on_newPageId l) e s else s)
        s (listeners s).

(** ** The daemon as a transition system *)

(** Everything that changes the session: a request to one of the endpoints,
    the browser's [disconnected] event, an event of a page. *)
Inductive Command :=
| PageCommand (r : Remote)
| GetConsole (page : option string)
| GetNetwork (page : option string)
| SelectPage (r : Remote) (pageId : option string)
| NewPage (r : Remote) (url : option string)
| ClosePage (r : Remote) (pageId : option string)
| Disconnected
| Emit (page : Page) (e : PageEvent).

Definition exec (s : SessionState) (c : Command) : SessionState :=
  match c with
  | PageCommand r => (page_command r s).2
  | GetConsole page => (get_console page s).2
  | GetNetwork page => (get_network page s).2
  | SelectPage r pageId => (select_page r pageId s).2
  | NewPage r url => (new_page r url s).2
  | ClosePage r pageId => (close_page r pageId s).2
  | Disconnected => on_disconnected s
  | Emit page e => emit page e s
  end.

(** The session after the daemon, started on the initial [state], has
    processed [cs] in order.  A handler that ends the process ([NoReply])
    leaves the state the process had at that point, and in an actual run
    nothing follows it: the runs of a daemon are among the lists [cs]. *)
Definition run (cs : list Command) : SessionState := foldl exec state cs.

(** ** The fallback chain of page resolution, rule by rule *)

(** [x] names a registered page: it is given, truthy, and a key of [pages]. *)
Definition names_page (s : SessionState) (x : option string)
    (id : string) (page : Page) : Prop :=
  x = Some id ∧ id ≠ "" ∧ JsMap.get (pages s) id = Some page.

(** The explicit rule does not apply and leaves [s1]: the identifier names
    no registered page, or the page it names fails validation and its entry
    is evicted from [pages]. *)
Definition explicit_falls_through (r : Remote) (pageId : option string)
    (s0 s1 : SessionState) : Prop :=
  ((∀ id page, ¬ names_page s0 pageId id page) ∧ s1 = s0)
  ∨ (∃ id page,
       names_page s0 pageId id page ∧ isPageValid r page = false
       ∧ s1 = with_pages (JsMap.delete (pages s0) id) s0).

(** The current-page rule does not apply and leaves [s2]: [currentPageId]
    names no registered page, or the page fails validation, its entry is
    evicted and [currentPageId] is reset. *)
Definition current_falls_through (r : Remote) (s1 s2 : SessionState) : Prop :=
  ((∀ id page, ¬ names_page s1 (currentPageId s1) id page) ∧ s2 = s1)
  ∨ (∃ id page,
       names_page s1 (currentPageId s1) id page ∧ isPageValid r page = false
       ∧ s2 = with_currentPageId None
                (with_pages (JsMap.delete (pages s1) id) s1)).

(** The tab that creation ends up with: the first open blank or new-tab
    page, else a newly opened one; [inl] when the browser call rejects. *)
Definition opened_tab (r : Remote) : string + Page :=
  match browser_pages r with
  | inl e => inl e
  | inr existingPages =>
      match find reusable existingPages with
      | Some reusablePage => inr reusablePage.1
      | None => browser_newPage r
      end
  end.

(** ** Interleaved handlers

    A handler is suspended at each [await], and the event loop may run other
    handlers before it resumes.  What touches the session between two
    suspension points is one of the synchronous blocks below; the values a
    handler computed before it was suspended ([id] of close-page, the page
    that was opened) are the block's parameters.  Any interleaving of
    handler runs is a sequence of blocks. *)
Inductive Block :=
(** [state.browser = await puppeteer.connect(...)] *)
| Attached (b : Browser)
(** the [disconnected] handler *)
| Detached
(** [state.pages.delete(state.currentPageId); state.currentPageId = null;] *)
| EvictCurrent
(** registration in [getOrCreatePage] ([subscribe]) or in new-page *)
| Registered (page : Page) (now : Z) (subscribe : bool)
(** [if (state.pages.has(pageId)) state.currentPageId = pageId] *)
| Selected (pageId : string)
(** close-page after [await page.close()] *)
| Closed (id : string)
| Emitted (page : Page) (e : PageEvent).

Definition block (s : SessionState) (k : Block) : SessionState :=
  match k with
  | Attached b => with_browser (Some b) s
  | Detached => on_disconnected s
  | EvictCurrent =>
      match currentPageId s with
      | Some id =>
          with_currentPageId None (with_pages (JsMap.delete (pages s) id) s)
      | None => s
      end
  | Registered page now subscribe =>
      let s' := register (page_id now) page s in
      if subscribe
      then with_listeners (listeners s' ++ subscriptions page (page_id now)) s'
      else s'
  | Selected pageId =>
      if JsMap.has (pages s) pageId then with_currentPageId (Some pageId) s
      else s
  | Closed id =>
      let s' := with_networkRequests (delete id (networkRequests s))
                  (with_consoleMessages (delete id (consoleMessages s))
                     (with_pages (JsMap.delete (pages s) id) s)) in
      if decide (currentPageId s' = Some id)
      then with_currentPageId (js_or (JsMap.first_key (pages s')) None) s'
      else s'
  | Emitted page e => emit page e s
  end.

(** The blocks that creation runs: registration, if a tab could be had. *)
Definition creation_blocks (r : Remote) : list Block :=
  match opened_tab r with
  | inr page => [Registered page (Date_now r) true]
  | inl _ => []
  end.

(** The blocks of [getOrCreatePage()] once the browser is attached. *)
Definition resolution_blocks (r : Remote) (s : SessionState) : list Block :=
  match currentPageId s with
  | Some id =>
      match truthy (currentPageId s), JsMap.get (pages s) id with
      | true, Some page =>
          if isPageValid r page then [] else EvictCurrent :: creation_blocks r
      | _, _ => creation_blocks r
      end
  | None => creation_blocks r
  end.

(** The blocks one uninterrupted run of a handler is made of. *)
Definition blocks_of (s : SessionState) (c : Command) : list Block :=
  match c with
  | PageCommand r =>
      match browser s, connect_loop r 0 2 with
      | Some _, _ => resolution_blocks r s
      | None, inr (Some b) => Attached b :: resolution_blocks r s
      | None, _ => []
      end
  | GetConsole _ | GetNetwork _ => []
  | SelectPage r pageId =>
      match pageId with Some id => [Selected id] | None => [] end
  | NewPage r url =>
      let registration :=
        match browser_newPage r with
        | inr page => [Registered page (Date_now r) false]
        | inl _ => []
        end in
      match browser s, connect_loop r 0 2 with
      | Some _, _ => registration
      | None, inr (Some b) => Attached b :: registration
      | None, _ => []
      end
  | ClosePage r pageId =>
      match js_or pageId (currentPageId s) with
      | Some id =>
          match truthy (js_or pageId (currentPageId s)),
                JsMap.get (pages s) id with
          | true, Some page =>
              match page_close r page with
              | None => [Closed id]
              | Some _ => []
              end
          | _, _ => []
          end
      | None => []
      end
  | Disconnected => [Detached]
  | Emit page e => [Emitted page e]
  end.

(** ** The specification's reading of response matching *)

(** Index of the most recent (last appended) record of the buffer that is
    still pending for [url], as the specification words the match. *)
Fixpoint most_recent_pending (url : string) (requests : list NetworkRequest)
    : option nat :=
  match requests with
  | [] => None
  | r :: rest =>
      match most_recent_pending url rest with
      | Some i => Some (S i)
      | None => if pending_for url r then Some 0 else None
      end
  end.

(** ** Sample runs *)

(** A browser that accepts the first attach, has no blank tab open, opens
    [tab] on [newPage()], whose clock reads [now], and where no operation
    fails. *)
Definition chrome (now : Z) (tab : Page) : Remote := {|
  puppeteer_connect := λ _, Some 0;
  isChromeRunning := false;
  profileDir_exists := true;
  mkdirSync_profileDir := None;
  spawn_chrome := λ _, Spawned;
  page_evaluate_ok := λ _, true;
  browser_pages := inr [];
  browser_newPage := inr tab;
  Date_now := now;
  page_url := λ _, "about:blank";
  page_goto := λ _ _, None;
  page_close := λ _, None;
  page_bringToFront := λ _, None;
  page_operation := λ _, None
|}.

(** The same browser after its tabs died: no page evaluates any more. *)
Definition stale (now : Z) (tab : Page) : Remote := {|
  puppeteer_connect := λ _, Some 0;
  isChromeRunning := false;
  profileDir_exists := true;
  mkdirSync_profileDir := None;
  spawn_chrome := λ _, Spawned;
  page_evaluate_ok := λ _, false;
  browser_pages := inr [];
  browser_newPage := inr tab;
  Date_now := now;
  page_url := λ _, "about:blank";
  page_goto := λ _ _, None;
  page_close := λ _, None;
  page_bringToFront := λ _, None;
  page_operation := λ _, None
|}.

Definition get_api : PageEvent := RequestEvent "http://localhost/api" "GET" "xhr".

Definition api_pending : NetworkRequest :=
  {| req_url := "http://localhost/api"; req_method := "GET"; req_status := 0;
     req_type := "xhr" |}.

(** One page, registered by a command at clock 1000 on tab 1, that has sent
    two requests to the same URL. *)
Definition two_pending : SessionState :=
  run [PageCommand (chrome 1000 1); Emit 1 get_api; Emit 1 get_api].

Definition tick : PageEvent := ConsoleEvent "log" "tick" 1.

Definition tick_message : ConsoleMessage :=
  {| msg_type := "log"; msg_text := "tick"; msg_timestamp := 1 |}.

(** One page, registered at clock 1000 on tab 1, that has logged to the
    console 1000 times. *)
Definition full_console : list Command :=
  PageCommand (chrome 1000 1) :: replicate 1000 (Emit 1 tick).

(** A browser like [chrome] whose [page.close()] rejects. *)
Definition unclosable (now : Z) (tab : Page) : Remote := {|
  puppeteer_connect := λ _, Some 0;
  isChromeRunning := false;
  profileDir_exists := true;
  mkdirSync_profileDir := None;
  spawn_chrome := λ _, Spawned;
  page_evaluate_ok := λ _, true;
  browser_pages := inr [];
  browser_newPage := inr tab;
  Date_now := now;
  page_url := λ _, "about:blank";
  page_goto := λ _ _, None;
  page_close := λ _, Some "Error: Protocol error (Target.closeTarget)";
  page_bringToFront := λ _, None;
  page_operation := λ _, None
|}.

(** A browser whose tabs died and that rejects [browser.pages()]. *)
Definition crashed (now : Z) : Remote := {|
  puppeteer_connect := λ _, Some 0;
  isChromeRunning := false;
  profileDir_exists := true;
  mkdirSync_profileDir := None;
  spawn_chrome := λ _, Spawned;
  page_evaluate_ok := λ _, false;
  browser_pages := inl "Error: Protocol error (Target.getTargets)";
  browser_newPage := inl "Error: Protocol error (Target.createTarget)";
  Date_now := now;
  page_url := λ _, "about:blank";
  page_goto := λ _ _, None;
  page_close := λ _, None;
  page_bringToFront := λ _, None;
  page_operation := λ _, None
|}.

(** One page, page_1000 on tab 1, with one console message captured. *)
Definition one_message : SessionState :=
  run [PageCommand (chrome 1000 1); Emit 1 tick].

(** Two pages: page_1000 registered by a command, then page_2000 by
    new-page, which is the current one. *)
Definition two_pages : list Command :=
  [PageCommand (chrome 1000 1); NewPage (chrome 2000 2) None].

(** ** Session invariants *)

(** [currentPageId] is [null] or a key of [pages]. *)
Definition current_registered (s : SessionState) : Prop :=
  match currentPageId s with
  | Some id => id ∈ JsMap.keys (pages s)
  | None => True
  end.

(** Every key of [pages] was made by [page_id]. *)
Definition keys_generated (s : SessionState) : Prop :=
  ∀ k, k ∈ JsMap.keys (pages s) → ∃ now, k = page_id now.

(** No buffer is longer than the capacity. *)
Definition buffers_bounded (s : SessionState) : Prop :=
  map_Forall (λ _ messages, length messages ≤ capacity) (consoleMessages s)
  ∧ map_Forall (λ _ requests, length requests ≤ capacity) (networkRequests s).

(** ** Weakest preconditions for [Async]

    [wp m Q E s]: run from [s], [m] either returns [a] in a state satisfying
    [Q a], or ends with [e] in a state satisfying [E e]. *)
Definition wp {A : Type} (m : Async A) (Q : A → SessionState → Prop)
    (E : Exn → SessionState → Prop) (s : SessionState) : Prop :=
  match m s with
  | (inr a, s') => Q a s'
  | (inl e, s') => E e s'
  end.

(** ** Read-only endpoints *)

(** [app.get('/health')]: [{status: 'ok', browser: !!state.browser,
    pages: state.pages.size}] *)
Definition health (s : SessionState) : bool * nat :=
  (bool_decide (is_Some (browser s)), JsMap.size (pages s)).

(** One entry of the [/pages] listing. *)
Record PageInfo := {
  info_id : string;
  info_url : string;
  info_title : string
}.

(** The body of the [for (const [id, page] of state.pages)] loop:
    [page_title] is [inr title] when the [try] block goes through, and [inl]
    when [page.url()] throws or [page.title()] rejects, which is caught and
    reported as ['unknown']. *)
Definition page_info (r : Remote) (page_title : Page → string + string)
    (entry : string * Page) : PageInfo :=
  match page_title entry.2 with
  | inr title =>
      {| info_id := entry.1; info_url := page_url r entry.2;
         info_title := title |}
  | inl _ =>
      {| info_id := entry.1; info_url := "unknown"; info_title := "unknown" |}
  end.

(** [app.get('/pages')]; the reply carries [currentPageId] and the list. *)
Definition get_pages (r : Remote) (page_title : Page → string + string)
    : SessionState → Reply (option string * list PageInfo) * SessionState :=
  handler (
    s ← read;
    mret (Success (currentPageId s, page_info r page_title <$> pages s))).

(** ** More session invariants *)

(** Every registered page has both buffers, and the two buffer maps have
    the same keys. *)
Definition pages_have_buffers (s : SessionState) : Prop :=
  (∀ k, k ∈ JsMap.keys (pages s) →
        is_Some (consoleMessages s !! k) ∧ is_Some (networkRequests s !! k))
  ∧ dom (consoleMessages s) = dom (networkRequests s).

(** [pages] holds each key once, as a [Map] does. *)
Definition keys_unique (s : SessionState) : Prop :=
  NoDup (JsMap.keys (pages s)).

(** The entries the console handler makes of a list of console events. *)
Definition console_entry (e : string * string * Z) : ConsoleMessage :=
  {| msg_type := e.1.1; msg_text := e.1.2; msg_timestamp := e.2 |}.

(** The page with handlers for [newPageId] emits the console events [es],
    one after the other. *)
Definition on_console_all (newPageId : string) (es : list (string * string * Z))
    (s : SessionState) : SessionState :=
  foldl (λ s e, on_console newPageId e.1.1 e.1.2 e.2 s) s es.

(** How many records of a buffer are pending for [url]. *)
Definition pending_count (url : string) (requests : list NetworkRequest)
    : nat :=
  length (filter (λ r, pending_for url r = true) requests).

(** ** Further predicates *)

(** While the browser is detached no page is registered. *)
Definition pages_need_browser (s : SessionState) : Prop :=
  browser s = None → pages s = [] ∧ currentPageId s = None.

#[global] Instance PageEvent_eq_dec : EqDecision PageEvent.
Proof. solve_decision. Defined.

#[global] Instance Block_eq_dec : EqDecision Block.
Proof. solve_decision. Defined.

(** ** Numbers in files and arguments *)

(** The integers a [number] holds exactly; [String] prints them in plain
    decimal. *)
Definition safe_integer (z : Z) : Prop := (- 2 ^ 53 < z < 2 ^ 53)%Z.

(** [String(n)] for a number that is a safe integer, [None] standing for
    [NaN]. *)
Definition String_of_number (n : option Z) : string :=
  match n with
  | Some z => pretty z
  | None => "NaN"
  end.

(** White space and line terminators, for strings of code units below 256:
    TAB, LF, VT, FF, CR, SP and NBSP. *)
Definition is_space (c : ascii) : bool :=
  bool_decide (nat_of_ascii c ∈ [9; 10; 11; 12; 13; 32; 160]).

Definition is_digit (c : ascii) : bool :=
  bool_decide (48 ≤ nat_of_ascii c ≤ 57).

Definition digit_value (c : ascii) : Z := Z.of_nat (nat_of_ascii c) - 48.

Fixpoint trim_start (s : string) : string :=
  match s with
  | String c rest => if is_space c then trim_start rest else s
  | EmptyString => EmptyString
  end.

Fixpoint trim_end (s : string) : string :=
  match s with
  | String c rest =>
      match trim_end rest with
      | EmptyString => if is_space c then EmptyString else String c EmptyString
      | kept => String c kept
      end
  | EmptyString => EmptyString
  end.

(** [s.trim()] *)
Definition trim (s : string) : string := trim_end (trim_start s).

(** The digits at the front of [s], read in base 10; [seen] tells whether a
    digit was read already. *)
Fixpoint read_digits (acc : Z) (seen : bool) (s : string) : option Z :=
  match s with
  | String c rest =>
      if is_digit c then read_digits (10 * acc + digit_value c) true rest
      else if seen then Some acc else None
  | EmptyString => if seen then Some acc else None
  end.

(** [parseInt(s, 10)]: leading white space is skipped, a sign is read, then
    the longest run of digits; [NaN] ([None]) when there is no digit. *)
Definition parseInt (s : string) : option Z :=
  match trim_start s with
  | String "-" rest => Z.opp <$> read_digits 0 false rest
  | String "+" rest => read_digits 0 false rest
  | rest => read_digits 0 false rest
  end.

Fixpoint no_space (s : string) : Prop :=
  match s with
  | String c rest => is_space c = false ∧ no_space rest
  | EmptyString => True
  end.

(** ** The front end and the liveness files *)

Definition DEFAULT_PORT : Z := 9234.

(** The two liveness files of [CONFIG_DIR]: their content, or [None] when
    [existsSync] answers false. *)
Record ConfigDir := {
  PID_FILE : option string;
  PORT_FILE : option string
}.

Definition getDaemonPort (d : ConfigDir) : option Z :=
  match PORT_FILE d with
  | Some content => parseInt (trim content)
  | None => Some DEFAULT_PORT
  end.

(** [signal0 pid] tells whether [process.kill(pid, 0)] returns; with [NaN]
    it throws, as it does for a process that is gone. *)
Definition isDaemonRunning (signal0 : Z → bool) (d : ConfigDir) : bool :=
  match PID_FILE d with
  | None => false
  | Some content =>
      match parseInt (trim content) with
      | Some pid => signal0 pid
      | None => false
      end
  end.

(** [parseInt(process.argv[2] || String(DEFAULT_PORT), 10)] of the daemon *)
Definition daemon_port (argv2 : option string) : option Z :=
  match js_or argv2 (Some (String_of_number (Some DEFAULT_PORT))) with
  | Some text => parseInt text
  | None => None
  end.

(** The [app.listen] callback of [startDaemon] in the process [pid]. *)
Definition startDaemon (pid : Z) (port : option Z) (d : ConfigDir)
    : ConfigDir :=
  {| PID_FILE := Some (String_of_number (Some pid));
     PORT_FILE := Some (String_of_number port) |}.

(** The two [unlinkSync] of [/shutdown]. *)
Definition shutdown_files (d : ConfigDir) : ConfigDir :=
  {| PID_FILE := None; PORT_FILE := None |}.

(** Which of [dist/daemon.js] and [src/daemon.ts] exist. *)
Record Install := {
  daemonPath_exists : bool;
  tsPath_exists : bool
}.

(** [cmd] and [args] of [ensureDaemon] for [port]. *)
Definition spawn_command (daemonPath tsPath : string) (i : Install)
    (port : Z) : option (string * list string) :=
  if daemonPath_exists i
  then Some ("node", [daemonPath; String_of_number (Some port)])
  else if tsPath_exists i
  then Some ("npx", ["tsx"; tsPath; String_of_number (Some port)])
  else None.

(** [process.argv[2]] of the daemon that either command starts: node and
    tsx both put the script at index 1 and its first argument at index 2. *)
Definition daemon_argv2 (command : string * list string) : option string :=
  last command.2.

(** [ensureDaemon]: the port, or the error thrown, and the command it
    spawned if any ([spawn] itself is taken to return).  [later] is what
    [isDaemonRunning] sees after the two seconds it waits. *)
Definition ensureDaemon (daemonPath tsPath : string) (i : Install)
    (signal0 : Z → bool) (d : ConfigDir)
    (later : (Z → bool) * ConfigDir)
    : (string + option Z) * option (string * list string) :=
  if isDaemonRunning signal0 d then (inr (getDaemonPort d), None)
  else
    match spawn_command daemonPath tsPath i DEFAULT_PORT with
    | None => (inl "Error: Daemon not found. Run npm run build first.", None)
    | Some command =>
        if isDaemonRunning later.1 later.2
        then (inr (Some DEFAULT_PORT), Some command)
        else (inl "Error: Failed to start daemon", Some command)
    end.

(** ** The relay script: which message is answered *)

(** A message as [getDiscordMessages] returns it. *)
Record Message := {
  m_id : string;
  m_author : string;
  m_authorId : string;
  m_content : string
}.

(** An object of the heap: its reference and its fields.  Two array
    elements are [===] when their references are equal. *)
Abbreviation Ref := nat (only parsing).

(** [arr.indexOf(x)]: the first index whose element is the object [x],
    else -1. *)
Fixpoint indexOf {A : Type} (arr : list (Ref * A)) (x : Ref) : Z :=
  match arr with
  | [] => -1
  | (y, _) :: rest =>
      if decide (y = x) then 0
      else match indexOf rest x with
           | Z.neg _ => -1
           | i => i + 1
           end
  end%Z.

(** [worthReplying.map(m => ({ ...m, onCooldown: isUserOnCooldown(m.authorId) }))]:
    every element of the result is a new object; [next] is the first unused
    reference and [onCooldown i] the answer of [isUserOnCooldown] for the
    element at index [i]. *)
Definition with_cooldown (next : Ref) (onCooldown : nat → bool)
    (worthReplying : list (Ref * Message))
    : list (Ref * (Message * bool)) :=
  imap (λ i m, (next + i, (m.2, onCooldown i))) worthReplying.

(** The comparator given to [sort]. *)
Definition by_cooldown (worthReplying : list (Ref * Message))
    (a b : Ref * (Message * bool)) : Z :=
  if decide (a.2.2 ≠ b.2.2) then (if a.2.2 then 1 else -1)
  else indexOf worthReplying b.1 - indexOf worthReplying a.1.

(** [Array.prototype.sort] is stable: an element is placed behind the
    elements that do not compare greater than it. *)
Fixpoint insert_sorted {A : Type} (cmp : A → A → Z) (x : A)
    (sorted : list A) : list A :=
  match sorted with
  | [] => [x]
  | y :: rest =>
      if decide (cmp y x ≤ 0)%Z then y :: insert_sorted cmp x rest
      else x :: sorted
  end.

Definition Array_sort {A : Type} (cmp : A → A → Z) (arr : list A) : list A :=
  foldl (λ sorted x, insert_sorted cmp x sorted) [] arr.

(** [prioritized.find(m => !m.onCooldown)] of [processMessages]. *)
Definition pick_message (next : Ref) (onCooldown : nat → bool)
    (worthReplying : list (Ref * Message)) : option (Message * bool) :=
  snd <$> find (λ m, negb m.2.2)
            (Array_sort (by_cooldown worthReplying)
               (with_cooldown next onCooldown worthReplying)).

(** ** Front-end commands *)




(** ** More sample runs *)

(** A machine on which nothing listens on the debugging port, even after
    Chrome was started. *)
Definition refusing : Remote := {|
  puppeteer_connect := λ _, None;
  isChromeRunning := false;
  profileDir_exists := true;
  mkdirSync_profileDir := None;
  spawn_chrome := λ _, Spawned;
  page_evaluate_ok := λ _, false;
  browser_pages := inr [];
  browser_newPage := inr 1;
  Date_now := 1000;
  page_url := λ _, "about:blank";
  page_goto := λ _ _, None;
  page_close := λ _, None;
  page_bringToFront := λ _, None;
  page_operation := λ _, None
|}.

(** A machine without Chrome: nothing listens on the debugging port and
    the program to start does not exist. *)
Definition no_chrome : Remote := {|
  puppeteer_connect := λ _, None;
  isChromeRunning := false;
  profileDir_exists := false;
  mkdirSync_profileDir := None;
  spawn_chrome := λ _, SpawnError "Error: spawn /usr/bin/google-chrome ENOENT";
  page_evaluate_ok := λ _, false;
  browser_pages := inr [];
  browser_newPage := inr 1;
  Date_now := 1000;
  page_url := λ _, "about:blank";
  page_goto := λ _ _, None;
  page_close := λ _, None;
  page_bringToFront := λ _, None;
  page_operation := λ _, None
|}.

(** A machine on which a Chrome without debugging port is running, and
    where the daemon cannot create its own profile directory. *)
Definition read_only : Remote := {|
  puppeteer_connect := λ _, None;
  isChromeRunning := true;
  profileDir_exists := false;
  mkdirSync_profileDir := Some "Error: EACCES: permission denied, mkdir";
  spawn_chrome := λ _, Spawned;
  page_evaluate_ok := λ _, false;
  browser_pages := inr [];
  browser_newPage := inr 1;
  Date_now := 1000;
  page_url := λ _, "about:blank";
  page_goto := λ _ _, None;
  page_close := λ _, None;
  page_bringToFront := λ _, None;
  page_operation := λ _, None
|}.

(** A browser like [chrome] where navigation and focus fail. *)
Definition unreachable (now : Z) (tab : Page) : Remote := {|
  puppeteer_connect := λ _, Some 0;
  isChromeRunning := false;
  profileDir_exists := true;
  mkdirSync_profileDir := None;
  spawn_chrome := λ _, Spawned;
  page_evaluate_ok := λ _, true;
  browser_pages := inr [];
  browser_newPage := inr tab;
  Date_now := now;
  page_url := λ _, "about:blank";
  page_goto := λ _ _, Some "Error: net::ERR_NAME_NOT_RESOLVED";
  page_close := λ _, None;
  page_bringToFront := λ _, Some "Error: Protocol error (Page.bringToFront)";
  page_operation := λ _, None
|}.

(** The front end on a machine with the built daemon and no liveness file. *)
Definition built : Install :=
  {| daemonPath_exists := true; tsPath_exists := false |}.

Definition no_marker : ConfigDir :=
  {| PID_FILE := None; PORT_FILE := None |}.

(** Three fetched messages, the first by an author on cooldown. *)
Definition fetched : list (nat * Message) :=
  [ (0, {| m_id := "m1"; m_author := "ann"; m_authorId := "u1";
           m_content := "hello there" |});
    (1, {| m_id := "m2"; m_author := "bob"; m_authorId := "u2";
           m_content := "kya haal hai" |});
    (2, {| m_id := "m3"; m_author := "cy"; m_authorId := "u3";
           m_content := "good morning" |}) ].

(** * Properties *)

(** ** Record update lemmas *)

Lemma with_networkRequests_id (s : SessionState) :
  with_networkRequests (networkRequests s) s = s.
Proof. by destruct s. Qed.

Lemma with_consoleMessages_id (s : SessionState) :
  with_consoleMessages (consoleMessages s) s = s.
Proof. by destruct s. Qed.

(** ** Response matching *)

Section find_and_set.
Variables (url : string) (status : Z).
Implicit Types (requests pre post : list NetworkRequest) (r : NetworkRequest).

Lemma find_and_set_none requests :
  Forall (λ r, pending_for url r = false) requests →
  find_and_set url status requests = requests.
Proof.
  induction 1 as [|r rest Hr _ IH]; simpl; [done|].
  by rewrite Hr, IH.
Qed.

Lemma find_and_set_first pre r post :
  Forall (λ r, pending_for url r = false) pre →
  pending_for url r = true →
  find_and_set url status (pre ++ r :: post)
  = pre ++ set_status status r :: post.
Proof.
  intros Hpre Hr. induction Hpre as [|x pre Hx _ IH]; simpl.
  - by rewrite Hr.
  - by rewrite Hx, IH.
Qed.

Lemma find_and_set_length requests :
  length (find_and_set url status requests) = length requests.
Proof.
  induction requests as [|r rest IH]; simpl; [done|].
  destruct (pending_for url r); simpl; by rewrite ?IH.
Qed.

(** When nothing before position [i] is pending, the scan stops at [i]. *)
Lemma find_and_set_insert requests i r :
  requests !! i = Some r →
  pending_for url r = true →
  (∀ k rk, k < i → requests !! k = Some rk → pending_for url rk = false) →
  find_and_set url status requests = <[i := set_status status r]> requests.
Proof.
  revert i. induction requests as [|x rest IH]; intros i Hi Hr Hbefore.
  - done.
  - destruct i as [|i]; simpl in *.
    + injection Hi as ->. by rewrite Hr.
    + rewrite (Hbefore 0 x) by (done || lia).
      f_equal. apply IH; [done..|].
      intros k rk Hk Hlook. apply (Hbefore (S k) rk); [lia|done].
Qed.
End find_and_set.

(** C1 (as worded, refuted): with two pending records for one URL in the
    buffer of page_1000, the most recent pending record is the second one;
    the response event sets the status of the first and leaves the most
    recent one pending. *)
Lemma response_most_recent_pending_refuted :
  let after := exec two_pending (Emit 1 (ResponseEvent "http://localhost/api" 200)) in
  networkRequests two_pending !! "page_1000" = Some [api_pending; api_pending]
  ∧ most_recent_pending "http://localhost/api" [api_pending; api_pending] = Some 1
  ∧ networkRequests after !! "page_1000"
    = Some [ {| req_url := "http://localhost/api"; req_method := "GET";
                req_status := 200; req_type := "xhr" |};
             {| req_url := "http://localhost/api"; req_method := "GET";
                req_status := 0; req_type := "xhr" |} ].
Proof. vm_compute. done. Qed.

(** C1 (amended): the response handler of a page sets the status of the
    earliest-appended record of that page's buffer that is still pending
    (status 0) and whose url equals the response's url, and changes nothing
    else: the record [r'] that takes its place has the response's status
    and the url, method and type it had, the records before and after it
    and every other field of the session stay; when the buffer holds no
    such record the session is unchanged. *)
Theorem on_response_sets_earliest_pending
    (s : SessionState) (newPageId url : string) (status : Z)
    (requests : list NetworkRequest) :
  networkRequests s !! newPageId = Some requests →
  (∀ pre r post,
     requests = pre ++ r :: post →
     Forall (λ x, pending_for url x = false) pre →
     pending_for url r = true →
     ∃ r',
       on_response newPageId url status s
       = with_networkRequests
           (<[newPageId := pre ++ r' :: post]> (networkRequests s)) s
       ∧ req_status r' = status
       ∧ req_url r' = url
       ∧ req_method r' = req_method r
       ∧ req_type r' = req_type r
       ∧ networkRequests (on_response newPageId url status s) !! newPageId
         = Some (pre ++ r' :: post)
       ∧ (∀ id, id ≠ newPageId →
            networkRequests (on_response newPageId url status s) !! id
            = networkRequests s !! id)
       ∧ consoleMessages (on_response newPageId url status s)
         = consoleMessages s
       ∧ pages (on_response newPageId url status s) = pages s
       ∧ currentPageId (on_response newPageId url status s) = currentPageId s)
  ∧ (Forall (λ x, pending_for url x = false) requests →
     on_response newPageId url status s = s).
Proof.
  intros Hbuf. unfold on_response. rewrite Hbuf. split.
  - intros pre r post -> Hpre Hr. exists (set_status status r).
    rewrite find_and_set_first by done. simpl.
    rewrite lookup_insert_eq.
    apply andb_true_iff in Hr as [Hurl%bool_decide_eq_true_1 _].
    repeat split; try done.
    intros id Hid. by rewrite lookup_insert_ne.
  - intros Hnone. rewrite find_and_set_none by done.
    rewrite insert_id by done. apply with_networkRequests_id.
Qed.

Lemma on_response_sets_earliest_pending_witness :
  ∃ r',
    on_response "page_1000" "http://localhost/api" 200 two_pending
    = with_networkRequests
        (<["page_1000" := [] ++ r' :: [api_pending]]>
           (networkRequests two_pending)) two_pending
    ∧ req_status r' = 200%Z
    ∧ req_url r' = "http://localhost/api"
    ∧ req_method r' = "GET"
    ∧ req_type r' = "xhr".
Proof.
  destruct (proj1 (on_response_sets_earliest_pending two_pending "page_1000"
                     "http://localhost/api" 200 [api_pending; api_pending]
                     eq_refl)
              [] api_pending [api_pending] eq_refl (Forall_nil_2 _) eq_refl)
    as (r' & Heq & Hstatus & Hurl & Hmethod & Htype & _).
  exists r'. repeat split; assumption.
Defined.

(** C2: when two (or more) records with the response's url are pending in a
    page's buffer, the response handler sets the status of the one appended
    earliest: the record at its position then has the response's status,
    and the url, method and type it had.  The later one stays pending, and
    it and every other record are left as they were. *)
Theorem on_response_two_pending_earliest
    (s : SessionState) (newPageId url : string) (status : Z)
    (requests : list NetworkRequest) (i j : nat) (ri rj : NetworkRequest) :
  networkRequests s !! newPageId = Some requests →
  requests !! i = Some ri → pending_for url ri = true →
  requests !! j = Some rj → pending_for url rj = true →
  i < j →
  (∀ k rk, k < i → requests !! k = Some rk → pending_for url rk = false) →
  ∃ requests' ri',
    networkRequests (on_response newPageId url status s) !! newPageId
    = Some requests'
    ∧ requests' !! i = Some ri'
    ∧ req_status ri' = status
    ∧ req_url ri' = url
    ∧ req_method ri' = req_method ri
    ∧ req_type ri' = req_type ri
    ∧ requests' !! j = Some rj
    ∧ req_status rj = 0%Z
    ∧ length requests' = length requests
    ∧ ∀ k, k ≠ i → requests' !! k = requests !! k.
Proof.
  intros Hbuf Hi Hpi Hj Hpj Hij Hearliest.
  exists (<[i := set_status status ri]> requests), (set_status status ri).
  pose proof (find_and_set_insert url status requests i ri Hi Hpi Hearliest)
    as Hfind.
  unfold on_response. rewrite Hbuf. simpl. rewrite lookup_insert_eq, Hfind.
  apply andb_true_iff in Hpi as [Hurl%bool_decide_eq_true_1 _].
  apply andb_true_iff in Hpj as [_ Hzero%bool_decide_eq_true_1].
  split; [done|]. split; [|repeat split; try done].
  - apply list_lookup_insert_eq. by eapply lookup_lt_Some.
  - rewrite list_lookup_insert_ne by lia. done.
  - apply length_insert.
  - intros k Hk. by rewrite list_lookup_insert_ne.
Qed.

Lemma on_response_two_pending_earliest_witness :
  ∃ requests' ri',
    networkRequests
      (on_response "page_1000" "http://localhost/api" 200 two_pending)
      !! "page_1000" = Some requests'
    ∧ requests' !! 0 = Some ri'
    ∧ req_status ri' = 200%Z
    ∧ req_url ri' = "http://localhost/api"
    ∧ req_method ri' = req_method api_pending
    ∧ req_type ri' = req_type api_pending
    ∧ requests' !! 1 = Some api_pending
    ∧ req_status api_pending = 0%Z
    ∧ length requests' = length [api_pending; api_pending]
    ∧ ∀ k, k ≠ 0 → requests' !! k = [api_pending; api_pending] !! k.
Proof.
  apply (on_response_two_pending_earliest two_pending "page_1000"
           "http://localhost/api" 200 [api_pending; api_pending] 0 1
           api_pending api_pending).
  - vm_compute. reflexivity.
  - reflexivity.
  - reflexivity.
  - reflexivity.
  - reflexivity.
  - lia.
  - intros k rk Hk. lia.
Defined.

(** ** Facts about the insertion-ordered map *)

Section js_map_facts.
Context {V : Type}.
Implicit Types (m : list (string * V)) (k : string) (v : V).

Lemma JsMap_get_is_Some m k :
  is_Some (JsMap.get m k) ↔ k ∈ JsMap.keys m.
Proof.
  unfold JsMap.keys. induction m as [|[k' v'] m IH]; simpl.
  - split; [by intros [? ?]|]. by intros ?%elem_of_nil.
  - rewrite elem_of_cons. case_decide as Hk.
    + split; [by left|by eexists].
    + rewrite IH. split; [by right|]. by intros [?|?].
Qed.

Lemma JsMap_has_true m k :
  JsMap.has m k = true ↔ k ∈ JsMap.keys m.
Proof.
  rewrite <- JsMap_get_is_Some. unfold JsMap.has.
  destruct (JsMap.get m k); split; (done || by intros [? ?] || by eexists).
Qed.

Lemma JsMap_keys_set m k v k' :
  k' ∈ JsMap.keys (JsMap.set m k v) ↔ k' = k ∨ k' ∈ JsMap.keys m.
Proof.
  unfold JsMap.keys. induction m as [|[k0 v0] m IH]; simpl.
  - rewrite list_elem_of_singleton, elem_of_nil. tauto.
  - case_decide; simpl; rewrite !elem_of_cons, ?IH; subst; tauto.
Qed.

Lemma JsMap_keys_delete m k k' :
  k' ∈ JsMap.keys (JsMap.delete m k) ↔ k' ≠ k ∧ k' ∈ JsMap.keys m.
Proof.
  unfold JsMap.keys. induction m as [|[k0 v0] m IH]; simpl.
  - rewrite elem_of_nil. tauto.
  - case_decide; simpl; rewrite ?elem_of_cons, IH; intuition congruence.
Qed.

Lemma JsMap_get_set m k v :
  JsMap.get (JsMap.set m k v) k = Some v.
Proof.
  induction m as [|[k0 v0] m IH]; simpl; repeat (case_decide; simpl); done.
Qed.

Lemma JsMap_first_key_Some m k :
  JsMap.first_key m = Some k → k ∈ JsMap.keys m.
Proof.
  unfold JsMap.first_key. destruct (JsMap.keys m) eqn:E; simpl; [done|].
  intros [= ->]. by left.
Qed.

Lemma JsMap_first_key_None m :
  JsMap.first_key m = None ↔ m = [].
Proof. destruct m as [|[? ?] ?]; by split. Qed.
End js_map_facts.

(** ** Rules for [wp] *)

Section wp_rules.
Context {A B : Type}.
Implicit Types (Q : A → SessionState → Prop)
  (E : Exn → SessionState → Prop) (s : SessionState).

Lemma wp_bind (m : Async B) (f : B → Async A) Q E s :
  wp m (λ b, wp (f b) Q E) E s → wp (m ≫= f) Q E s.
Proof.
  unfold wp, mbind, Async_bind. by destruct (m s) as [[e|b] s'].
Qed.

Lemma wp_ret (a : A) Q E s : Q a s → wp (mret a) Q E s.
Proof. done. Qed.

Lemma wp_raise (e : Exn) Q E s : E e s → wp (raise e) Q E s.
Proof. done. Qed.

Lemma wp_throw (e : string) Q E s : E (Thrown e) s → wp (throw e) Q E s.
Proof. done. Qed.

Lemma wp_await (o : string + A) Q E s :
  match o with inl e => E (Thrown e) s | inr a => Q a s end →
  wp (await o) Q E s.
Proof. by destruct o. Qed.

Lemma wp_mono (m : Async A) Q Q' E E' s :
  wp m Q E s →
  (∀ a s', Q a s' → Q' a s') → (∀ e s', E e s' → E' e s') →
  wp m Q' E' s.
Proof. unfold wp. destruct (m s) as [[e|a] s']; eauto. Qed.

Lemma wp_handler (body : Async (Reply A))
    (R : Reply A * SessionState → Prop) s :
  wp body (λ reply s', R (reply, s')) (λ e s', R (on_exn e, s')) s →
  R (handler body s).
Proof. unfold wp, handler. by destruct (body s) as [[e|reply] s']. Qed.
End wp_rules.

Lemma wp_await_void (o : option string) Q E s :
  match o with Some e => E (Thrown e) s | None => Q () s end →
  wp (await_void o) Q E s.
Proof. by destruct o. Qed.

Lemma wp_read Q E s : Q s s → wp read Q E s.
Proof. done. Qed.

Lemma wp_update f Q E s : Q () (f s) → wp (update f) Q E s.
Proof. done. Qed.

(** Symbolic execution of a handler body, one construct at a time. *)
Ltac wp_step :=
  lazymatch goal with
  | |- wp (mbind _ _) _ _ _ => apply wp_bind
  | |- wp (mret _) _ _ _ => apply wp_ret
  | |- wp (throw _) _ _ _ => apply wp_throw
  | |- wp (raise _) _ _ _ => apply wp_raise
  | |- wp read _ _ _ => apply wp_read
  | |- wp (update _) _ _ _ => apply wp_update
  | |- wp (await ?o) _ _ _ => apply wp_await; destruct o eqn:?
  | |- wp (await_void ?o) _ _ _ => apply wp_await_void; destruct o eqn:?
  | |- wp (match ?x with _ => _ end) _ _ _ => destruct x eqn:?
  end; cbn beta zeta; cbn [on_exn].

Ltac wp_run := repeat wp_step.

(** The two ways in which a body ends without returning. *)
Ltac case_exn :=
  match goal with e : Exn |- _ => destruct e end.

(** A property that every handler body keeps, whether it returns or throws. *)
Definition keeps {A : Type} (P : SessionState → Prop) (m : Async A) : Prop :=
  ∀ s, P s → wp m (λ _, P) (λ _, P) s.

Lemma keeps_handler {A : Type} (P : SessionState → Prop)
    (body : Async (Reply A)) (s : SessionState) :
  keeps P body → P s → P (handler body s).2.
Proof. intros Hbody Hs. apply (wp_handler body (λ x, P x.2)), Hbody, Hs. Qed.

(** ** Events reach the state only through the handlers *)

Lemma emit_keeps (P : SessionState → Prop) (page : Page) (e : PageEvent)
    (s : SessionState) :
  (∀ id s, P s → P (handle id e s)) → P s → P (emit page e s).
Proof.
  intros Hhandle. unfold emit. generalize (listeners s).
  intros ls. revert s. induction ls as [|l ls IH]; intros s Hs; simpl; [done|].
  apply IH. case_decide; auto.
Qed.

Lemma run_keeps (P : SessionState → Prop) :
  P state → (∀ s c, P s → P (exec s c)) → ∀ cs, P (run cs).
Proof.
  intros Hinit Hexec cs. unfold run. generalize state Hinit.
  induction cs as [|c cs IH]; intros s Hs; simpl; auto.
Qed.

Lemma handle_pages id e s : pages (handle id e s) = pages s.
Proof.
  destruct e; simpl; unfold on_console, on_request, on_response;
    by case_match.
Qed.

Lemma handle_currentPageId id e s :
  currentPageId (handle id e s) = currentPageId s.
Proof.
  destruct e; simpl; unfold on_console, on_request, on_response;
    by case_match.
Qed.

(** ** [currentPageId] names a registered page *)

Lemma js_or_first_key {V : Type} (m : list (string * V)) :
  match js_or (JsMap.first_key m) None with
  | Some k => k ∈ JsMap.keys m
  | None => True
  end.
Proof.
  unfold js_or. destruct (truthy (JsMap.first_key m)); [|done].
  destruct (JsMap.first_key m) eqn:E; [|done]. by apply JsMap_first_key_Some.
Qed.

Ltac solve_current :=
  unfold current_registered in *; simpl in *;
  try done;
  try (apply JsMap_keys_set; by left);
  try (apply JsMap_get_is_Some; by eexists).

Lemma getOrCreatePage_current_registered r :
  keeps current_registered (getOrCreatePage r None).
Proof.
  intros s Hs.
  unfold getOrCreatePage, launchBrowser, resolve_explicit, resolve_current,
    create_page.
  wp_run; solve_current.
Qed.

Lemma exec_current_registered s c :
  current_registered s → current_registered (exec s c).
Proof.
  intros Hs. destruct c as [r|page|page|r pageId|r url|r pageId| |page e];
    cbn [exec];
    unfold page_command, get_console, get_network, select_page, new_page,
      close_page.
  - apply (keeps_handler current_registered); [|done]. intros s' Hs'.
    wp_step. eapply wp_mono; [by apply getOrCreatePage_current_registered|..].
    + intros found s'' Hs''. simpl. wp_run; solve_current.
    + done.
  - apply (keeps_handler current_registered); [|done]. intros s' Hs'. wp_run; solve_current.
  - apply (keeps_handler current_registered); [|done]. intros s' Hs'. wp_run; solve_current.
  - apply (keeps_handler current_registered); [|done]. intros s' Hs'. wp_run; solve_current.
  - apply (keeps_handler current_registered); [|done]. intros s' Hs'.
    unfold launchBrowser. wp_run; solve_current.
  - apply (keeps_handler current_registered); [|done]. intros s' Hs'. wp_run; try solve_current.
    + simpl. unfold current_registered. simpl. apply js_or_first_key.
    + unfold current_registered in *. simpl in *.
      destruct (currentPageId s') as [c|] eqn:Hc; [|done].
      apply JsMap_keys_delete. split; [congruence|done].
  - done.
  - apply emit_keeps; [|done]. intros id s' Hs'.
    unfold current_registered. by rewrite handle_pages, handle_currentPageId.
Qed.

(** C4: after any sequence of requests to the daemon's endpoints (the page
    commands, which resolve their page with [getOrCreatePage()], console and
    network queries, select-page, new-page, close-page), [disconnected]
    events and page events, [currentPageId] is [null] or a key of [pages]. *)
Theorem currentPageId_null_or_registered (cs : list Command) :
  currentPageId (run cs) = None
  ∨ ∃ id, currentPageId (run cs) = Some id
          ∧ JsMap.has (pages (run cs)) id = true.
Proof.
  pose proof (run_keeps current_registered I exec_current_registered cs) as H.
  unfold current_registered in H.
  destruct (currentPageId (run cs)) as [id|]; [right|by left].
  exists id. split; [done|]. by apply JsMap_has_true.
Qed.

(** [getOrCreatePage] with an explicit identifier, which no endpoint passes:
    the property still holds whenever the call returns a page. *)
Lemma getOrCreatePage_returns_current_registered r pageId s :
  current_registered s →
  wp (getOrCreatePage r pageId) (λ _, current_registered) (λ _ _, True) s.
Proof.
  intros Hs.
  unfold getOrCreatePage, launchBrowser, resolve_explicit, resolve_current,
    create_page.
  wp_run; solve_current.
  all: match goal with H : currentPageId _ = Some _ |- _ => rewrite H end.
  all: apply JsMap_get_is_Some; by eexists.
Qed.

(** It is lost only when the explicit identifier is the current one, fails
    validation, and the creation of the replacement page throws. *)
Example getOrCreatePage_explicit_current_throws :
  let after := (getOrCreatePage (crashed 3000) (Some "page_2000")
                  (run two_pages)).2 in
  currentPageId after = Some "page_2000"
  ∧ JsMap.keys (pages after) = ["page_1000"].
Proof. vm_compute. done. Qed.

(** ** Keys of [pages] are generated identifiers *)

Lemma page_id_truthy now : truthy (Some (page_id now)) = true.
Proof. done. Qed.

Ltac solve_keys :=
  unfold keys_generated in *; simpl in *;
  try done;
  let k := fresh "k" in
  let Hk := fresh "Hk" in
  intros k Hk;
  try (apply JsMap_keys_set in Hk as [->|Hk]; [by eexists|]);
  try (apply JsMap_keys_delete in Hk as [_ Hk]);
  try (apply JsMap_keys_delete in Hk as [_ Hk]);
  try (by apply elem_of_nil in Hk);
  auto.

Lemma getOrCreatePage_keys_generated r pageId :
  keeps keys_generated (getOrCreatePage r pageId).
Proof.
  intros s Hs.
  unfold getOrCreatePage, launchBrowser, resolve_explicit, resolve_current,
    create_page.
  wp_run; solve_keys.
Qed.

Lemma exec_keys_generated s c :
  keys_generated s → keys_generated (exec s c).
Proof.
  intros Hs. destruct c as [r|page|page|r pageId|r url|r pageId| |page e];
    cbn [exec];
    unfold page_command, get_console, get_network, select_page, new_page,
      close_page.
  - apply (keeps_handler keys_generated); [|done]. intros s' Hs'.
    wp_step. eapply wp_mono; [by apply getOrCreatePage_keys_generated|..].
    + intros found s'' Hs''. simpl. wp_run; solve_keys.
    + done.
  - apply (keeps_handler keys_generated); [|done]. intros s' Hs'.
    wp_run; solve_keys.
  - apply (keeps_handler keys_generated); [|done]. intros s' Hs'.
    wp_run; solve_keys.
  - apply (keeps_handler keys_generated); [|done]. intros s' Hs'.
    wp_run; solve_keys.
  - apply (keeps_handler keys_generated); [|done]. intros s' Hs'.
    unfold launchBrowser. wp_run; solve_keys.
  - apply (keeps_handler keys_generated); [|done]. intros s' Hs'.
    wp_run; solve_keys.
  - intros k Hk. by apply elem_of_nil in Hk.
  - apply emit_keeps; [|done]. intros id s' Hs'.
    unfold keys_generated. by rewrite handle_pages.
Qed.

Lemma run_keys_truthy cs k :
  k ∈ JsMap.keys (pages (run cs)) → truthy (Some k) = true.
Proof.
  intros Hk.
  destruct (run_keeps keys_generated) with (cs := cs) (k := k) as [now ->];
    [by intros ? ?%elem_of_nil|apply exec_keys_generated|done|].
  apply page_id_truthy.
Qed.

(** C5: when close-page closes the current page (no [pageId] in the request,
    or the current one) and [page.close()] succeeds, the page is removed and
    [currentPageId] becomes a key of what remains of [pages] (the first in
    insertion order) whenever a page remains; it becomes [null] only when
    [pages] is left empty. *)
Theorem close_current_page_reassigns
    (cs : list Command) (r : Remote) (pageId : option string)
    (id : string) (page : Page) :
  let s := run cs in
  let s' := (close_page r pageId s).2 in
  currentPageId s = Some id →
  js_or pageId (currentPageId s) = Some id →
  JsMap.get (pages s) id = Some page →
  page_close r page = None →
  (close_page r pageId s).1 = Success ()
  ∧ pages s' = JsMap.delete (pages s) id
  ∧ (pages s' ≠ [] →
     ∃ k, currentPageId s' = Some k ∧ k ∈ JsMap.keys (pages s')
          ∧ JsMap.first_key (pages s') = Some k)
  ∧ (currentPageId s' = None → pages s' = []).
Proof.
  intros s s' Hcur Hid Hget Hclose. subst s'.
  assert (truthy (Some id) = true) as Htruthy.
  { apply (run_keys_truthy cs), JsMap_get_is_Some. by eexists. }
  assert (∀ k, k ∈ JsMap.keys (JsMap.delete (pages s) id) →
               truthy (Some k) = true) as Hrest.
  { intros k [_ Hk]%JsMap_keys_delete. by apply (run_keys_truthy cs). }
  unfold close_page.
  apply (wp_handler _ (λ x,
    x.1 = Success ()
    ∧ pages x.2 = JsMap.delete (pages s) id
    ∧ (pages x.2 ≠ [] →
       ∃ k, currentPageId x.2 = Some k ∧ k ∈ JsMap.keys (pages x.2)
            ∧ JsMap.first_key (pages x.2) = Some k)
    ∧ (currentPageId x.2 = None → pages x.2 = []))).
  wp_run; simplify_eq/=; try congruence.
  destruct (JsMap.first_key (JsMap.delete (pages s) id)) as [k|] eqn:Hfirst.
  - pose proof (JsMap_first_key_Some _ _ Hfirst) as Hk.
    unfold js_or. specialize (Hrest k Hk). change (truthy (Some k) = true) in Hrest.
    rewrite Hrest. repeat split; [by exists k|done].
  - apply JsMap_first_key_None in Hfirst. rewrite Hfirst. done.
Qed.

Lemma close_current_page_reassigns_witness :
  let s := run two_pages in
  let s' := (close_page (chrome 3000 3) None s).2 in
  (close_page (chrome 3000 3) None s).1 = Success ()
  ∧ pages s' = JsMap.delete (pages s) "page_2000"
  ∧ (pages s' ≠ [] →
     ∃ k, currentPageId s' = Some k ∧ k ∈ JsMap.keys (pages s')
          ∧ JsMap.first_key (pages s') = Some k)
  ∧ (currentPageId s' = None → pages s' = []).
Proof.
  apply (close_current_page_reassigns two_pages (chrome 3000 3) None
           "page_2000" 2); vm_compute; reflexivity.
Defined.

(** ** Capture buffers stay within their capacity *)

Lemma push_capped_length {A : Type} (buf : list A) (x : A) :
  length buf ≤ capacity → length (push_capped buf x) ≤ capacity.
Proof.
  intros Hbuf. unfold push_capped. case_decide as Hfull.
  - destruct buf as [|y buf]; simpl in *; [lia|].
    rewrite length_app. simpl. lia.
  - lia.
Qed.

Lemma push_capped_room {A : Type} (buf : list A) (x : A) :
  length buf < capacity → push_capped buf x = buf ++ [x].
Proof.
  intros Hbuf. unfold push_capped. case_decide as Hfull; [|done].
  rewrite length_app in Hfull. simpl in Hfull. lia.
Qed.

Lemma push_capped_full {A : Type} (buf : list A) (x : A) :
  length buf = capacity → push_capped buf x = drop 1 buf ++ [x].
Proof.
  intros Hbuf. unfold push_capped. case_decide as Hfull.
  - destruct buf as [|y buf]; [done|]. simpl. by rewrite drop_0.
  - rewrite length_app in Hfull. simpl in Hfull. lia.
Qed.

Ltac solve_bounded :=
  unfold buffers_bounded in *; simpl in *;
  try done;
  match goal with
  | H : _ ∧ _ |- _ ∧ _ =>
      destruct H; split;
      try done;
      try (apply map_Forall_insert_2; [simpl; lia|done]);
      try (by apply map_Forall_delete)
  end.

Lemma getOrCreatePage_buffers_bounded r pageId :
  keeps buffers_bounded (getOrCreatePage r pageId).
Proof.
  intros s Hs.
  unfold getOrCreatePage, launchBrowser, resolve_explicit, resolve_current,
    create_page.
  wp_run; solve_bounded.
Qed.

Lemma handle_buffers_bounded id e s :
  buffers_bounded s → buffers_bounded (handle id e s).
Proof.
  intros [Hc Hn].
  destruct e; simpl; unfold on_console, on_request, on_response;
    case_match eqn:Hbuf; try done; split; simpl; try done;
    apply map_Forall_insert_2; try done.
  - apply push_capped_length. by apply (Hc id).
  - apply push_capped_length. by apply (Hn id).
  - rewrite find_and_set_length. by apply (Hn id).
Qed.

Lemma exec_buffers_bounded s c :
  buffers_bounded s → buffers_bounded (exec s c).
Proof.
  intros Hs. destruct c as [r|page|page|r pageId|r url|r pageId| |page e];
    cbn [exec];
    unfold page_command, get_console, get_network, select_page, new_page,
      close_page.
  - apply (keeps_handler buffers_bounded); [|done]. intros s' Hs'.
    wp_step. eapply wp_mono; [by apply getOrCreatePage_buffers_bounded|..].
    + intros found s'' Hs''. simpl. wp_run; solve_bounded.
    + done.
  - apply (keeps_handler buffers_bounded); [|done]. intros s' Hs'.
    wp_run; solve_bounded.
  - apply (keeps_handler buffers_bounded); [|done]. intros s' Hs'.
    wp_run; solve_bounded.
  - apply (keeps_handler buffers_bounded); [|done]. intros s' Hs'.
    wp_run; solve_bounded.
  - apply (keeps_handler buffers_bounded); [|done]. intros s' Hs'.
    unfold launchBrowser. wp_run; solve_bounded.
  - apply (keeps_handler buffers_bounded); [|done]. intros s' Hs'.
    wp_run; solve_bounded.
  - done.
  - apply emit_keeps; [|done]. intros id s'. apply handle_buffers_bounded.
Qed.

Lemma run_buffers_bounded cs : buffers_bounded (run cs).
Proof.
  apply run_keeps; [|apply exec_buffers_bounded].
  split; apply map_Forall_empty.
Qed.

(** C6: after any sequence of commands and events, every console buffer and
    every network buffer holds at most 1000 entries; the console and request
    handlers append at the end, and on a buffer that already holds 1000
    entries they drop the oldest one (index 0); the response handler does
    not change the length. *)
Theorem buffers_capped_fifo (cs : list Command) (id : string) :
  let s := run cs in
  (∀ messages,
     consoleMessages s !! id = Some messages →
     length messages ≤ 1000
     ∧ ∀ type text now,
         let entry := {| msg_type := type; msg_text := text;
                         msg_timestamp := now |} in
         consoleMessages (on_console id type text now s) !! id
         = Some (if decide (length messages < 1000)
                 then messages ++ [entry]
                 else drop 1 messages ++ [entry]))
  ∧ (∀ requests,
       networkRequests s !! id = Some requests →
       length requests ≤ 1000
       ∧ (∀ url method type,
            let entry := {| req_url := url; req_method := method;
                            req_status := 0; req_type := type |} in
            networkRequests (on_request id url method type s) !! id
            = Some (if decide (length requests < 1000)
                    then requests ++ [entry]
                    else drop 1 requests ++ [entry]))
       ∧ (∀ url status,
            ∃ requests',
              networkRequests (on_response id url status s) !! id
              = Some requests'
              ∧ length requests' = length requests)).
Proof.
  intros s. destruct (run_buffers_bounded cs) as [Hc Hn]. fold s in Hc, Hn.
  change 1000 with capacity. split.
  - intros messages Hbuf. pose proof (Hc id messages Hbuf) as Hlen.
    split; [done|]. intros type text now entry.
    unfold on_console. rewrite Hbuf. simpl. rewrite lookup_insert_eq.
    f_equal. case_decide.
    + by apply push_capped_room.
    + apply push_capped_full. simpl in Hlen. lia.
  - intros requests Hbuf. pose proof (Hn id requests Hbuf) as Hlen.
    split; [done|]. split.
    + intros url method type entry.
      unfold on_request. rewrite Hbuf. simpl. rewrite lookup_insert_eq.
      f_equal. case_decide.
      * by apply push_capped_room.
      * apply push_capped_full. simpl in Hlen. lia.
    + intros url status. exists (find_and_set url status requests).
      unfold on_response. rewrite Hbuf. simpl. rewrite lookup_insert_eq.
      split; [done|]. apply find_and_set_length.
Qed.

Lemma buffers_capped_fifo_witness :
  length (replicate 1000 tick_message) ≤ 1000
  ∧ consoleMessages (on_console "page_1000" "log" "last" 2 (run full_console))
      !! "page_1000"
    = Some (drop 1 (replicate 1000 tick_message)
            ++ [{| msg_type := "log"; msg_text := "last";
                   msg_timestamp := 2 |}]).
Proof.
  destruct (buffers_capped_fifo full_console "page_1000") as [Hconsole _].
  destruct (Hconsole (replicate 1000 tick_message)) as [Hlen Hpush].
  - vm_compute. reflexivity.
  - split; [exact Hlen|]. exact (Hpush "log" "last" 2%Z).
Defined.

(** ** Page resolution *)

Ltac async_unfold :=
  unfold mbind, Async_bind, read, update, await, throw, raise, mret,
    Async_ret.

Lemma resolve_explicit_hit r pageId s id page :
  names_page s pageId id page → isPageValid r page = true →
  resolve_explicit r pageId s = (inr (Some (page, id)), s).
Proof.
  intros (-> & Hid & Hget) Hvalid. unfold resolve_explicit, truthy.
  async_unfold. rewrite bool_decide_eq_true_2 by done.
  by rewrite Hget, Hvalid.
Qed.

Lemma resolve_explicit_miss r pageId s0 s1 :
  explicit_falls_through r pageId s0 s1 →
  resolve_explicit r pageId s0 = (inr None, s1).
Proof.
  unfold resolve_explicit, truthy.
  intros [[Hnone ->]|(id & page & (-> & Hid & Hget) & Hvalid & ->)];
    async_unfold.
  - destruct pageId as [id|]; [|done].
    destruct (bool_decide (id ≠ "")) eqn:Hid; [|done].
    apply bool_decide_eq_true_1 in Hid.
    destruct (JsMap.get (pages s0) id) as [page|] eqn:Hget; [|done].
    by destruct (Hnone id page).
  - rewrite bool_decide_eq_true_2 by done. by rewrite Hget, Hvalid.
Qed.

Lemma resolve_current_hit r s id page :
  names_page s (currentPageId s) id page → isPageValid r page = true →
  resolve_current r s = (inr (Some (page, id)), s).
Proof.
  intros (Hcur & Hid & Hget) Hvalid. unfold resolve_current, truthy.
  async_unfold. rewrite Hcur. rewrite bool_decide_eq_true_2 by done.
  by rewrite Hget, Hvalid.
Qed.

Lemma resolve_current_miss r s1 s2 :
  current_falls_through r s1 s2 →
  resolve_current r s1 = (inr None, s2).
Proof.
  unfold resolve_current, truthy.
  intros [[Hnone ->]|(id & page & (Hcur & Hid & Hget) & Hvalid & ->)];
    async_unfold.
  - destruct (currentPageId s1) as [id|] eqn:Hcur; [|done].
    destruct (bool_decide (id ≠ "")) eqn:Hid; [|done].
    apply bool_decide_eq_true_1 in Hid.
    destruct (JsMap.get (pages s1) id) as [page|] eqn:Hget; [|done].
    by destruct (Hnone id page).
  - rewrite Hcur. rewrite bool_decide_eq_true_2 by done.
    by rewrite Hget, Hvalid.
Qed.

Lemma create_page_opened r s :
  create_page r s
  = match opened_tab r with
    | inl e => (inl (Thrown e), s)
    | inr page =>
        let newPageId := page_id (Date_now r) in
        (inr (page, newPageId),
         with_listeners (listeners s ++ subscriptions page newPageId)
           (register newPageId page s))
    end.
Proof.
  unfold create_page, opened_tab. async_unfold.
  destruct (browser_pages r) as [e|existingPages]; [done|].
  destruct (find reusable existingPages) as [reusablePage|]; [done|].
  by destruct (browser_newPage r).
Qed.

(** The explicit rule always settles: it applies, or it falls through to
    exactly one state. *)
Lemma explicit_rule_total r pageId s0 :
  (∃ id page, names_page s0 pageId id page ∧ isPageValid r page = true)
  ∨ ∃ s1, explicit_falls_through r pageId s0 s1.
Proof.
  destruct pageId as [id|].
  - destruct (decide (id = "")) as [->|Hid].
    { right. exists s0. left. split; [|done]. intros ? ? (? & ? & ?); congruence. }
    destruct (JsMap.get (pages s0) id) as [page|] eqn:Hget.
    + destruct (isPageValid r page) eqn:Hvalid.
      * left. by exists id, page.
      * right. eexists. right. by exists id, page.
    + right. exists s0. left. split; [|done].
      intros ? ? (? & ? & ?). congruence.
  - right. exists s0. left. split; [|done]. intros ? ? (? & ? & ?); congruence.
Qed.

Lemma current_rule_total r s1 :
  (∃ id page, names_page s1 (currentPageId s1) id page
              ∧ isPageValid r page = true)
  ∨ ∃ s2, current_falls_through r s1 s2.
Proof.
  destruct (currentPageId s1) as [id|] eqn:Hcur.
  - destruct (decide (id = "")) as [->|Hid].
    { right. exists s1. left. split; [|done].
      intros ? ? (? & ? & ?). congruence. }
    destruct (JsMap.get (pages s1) id) as [page|] eqn:Hget.
    + destruct (isPageValid r page) eqn:Hvalid.
      * left. by exists id, page.
      * right. eexists. right. by exists id, page.
    + right. exists s1. left. split; [|done].
      intros ? ? (? & ? & ?). congruence.
  - right. exists s1. left. split; [|done].
    intros ? ? (? & ? & ?). congruence.
Qed.

(** C7: once the browser is attached (state [s0]), [getOrCreatePage] follows
    one fixed chain.  (a) An explicit identifier that names a registered
    page which validates is returned with its page, the state untouched.
    (b) Otherwise the explicit rule falls through, evicting the entry if it
    failed validation, and the page named by [currentPageId] is returned if
    it validates.  (c) Otherwise that entry is evicted too, [currentPageId]
    reset, and a page is created (a reusable blank tab, else a new tab),
    registered under [page_id (Date_now r)] (which then maps to it in
    [pages], with two empty buffers), made current, subscribed to, and
    returned; if the browser call rejects, the exception leaves the
    evictions in place.  Exactly one of the three rules applies, and an
    evicted identifier is no longer a key of [pages] when the next rule
    runs. *)
Theorem getOrCreatePage_fallback_chain
    (r : Remote) (pageId : option string) (s s0 : SessionState) (b : Browser) :
  launchBrowser r s = (inr b, s0) →
  (∀ id page,
     names_page s0 pageId id page → isPageValid r page = true →
     getOrCreatePage r pageId s = (inr (page, id), s0))
  ∧ (∀ s1,
       explicit_falls_through r pageId s0 s1 →
       (∀ id page, names_page s0 pageId id page →
                   id ∉ JsMap.keys (pages s1))
       ∧ (∀ id page,
            names_page s1 (currentPageId s1) id page →
            isPageValid r page = true →
            getOrCreatePage r pageId s = (inr (page, id), s1))
       ∧ (∀ s2,
            current_falls_through r s1 s2 →
            (∀ id page, names_page s1 (currentPageId s1) id page →
                        (id ∉ JsMap.keys (pages s2))
                        ∧ currentPageId s2 = None)
            ∧ getOrCreatePage r pageId s
              = match opened_tab r with
                | inl e => (inl (Thrown e), s2)
                | inr page =>
                    let newPageId := page_id (Date_now r) in
                    (inr (page, newPageId),
                     with_listeners
                       (listeners s2 ++ subscriptions page newPageId)
                       (register newPageId page s2))
                end
            ∧ (∀ page,
                 opened_tab r = inr page →
                 let newPageId := page_id (Date_now r) in
                 let s3 := (getOrCreatePage r pageId s).2 in
                 pages s3 = JsMap.set (pages s2) newPageId page
                 ∧ JsMap.get (pages s3) newPageId = Some page
                 ∧ currentPageId s3 = Some newPageId
                 ∧ consoleMessages s3 !! newPageId = Some []
                 ∧ networkRequests s3 !! newPageId = Some []
                 ∧ listeners s3
                   = listeners s2 ++ subscriptions page newPageId)))
  ∧ ((∃ id page, names_page s0 pageId id page ∧ isPageValid r page = true)
     ∨ ∃ s1, explicit_falls_through r pageId s0 s1
             ∧ ((∃ id page, names_page s1 (currentPageId s1) id page
                            ∧ isPageValid r page = true)
                ∨ ∃ s2, current_falls_through r s1 s2)).
Proof.
  intros Hlaunch.
  assert (getOrCreatePage r pageId s
          = match resolve_explicit r pageId s0 with
            | (inl e, s') => (inl e, s')
            | (inr (Some found), s') => (inr found, s')
            | (inr None, s') =>
                match resolve_current r s' with
                | (inl e, s'') => (inl e, s'')
                | (inr (Some found), s'') => (inr found, s'')
                | (inr None, s'') => create_page r s''
                end
            end) as Hchain.
  { unfold getOrCreatePage. unfold mbind at 1. unfold Async_bind at 1.
    rewrite Hlaunch. unfold mbind at 1. unfold Async_bind at 1.
    destruct (resolve_explicit r pageId s0) as [[e|[found|]] s']; [done..|].
    unfold mbind at 1. unfold Async_bind at 1.
    by destruct (resolve_current r s') as [[e|[found|]] s'']. }
  split; [|split].
  - intros id page Hname Hvalid.
    by rewrite Hchain, (resolve_explicit_hit r pageId s0 id page).
  - intros s1 Hmiss.
    rewrite Hchain, (resolve_explicit_miss r pageId s0 s1 Hmiss).
    split; [|split].
    + intros id page (-> & Hid & Hget).
      destruct Hmiss as [[Hnone ->]|(id' & page' & (Heq & _) & _ & ->)].
      * by destruct (Hnone id page).
      * injection Heq as <-. simpl. rewrite JsMap_keys_delete. tauto.
    + intros id page Hname Hvalid.
      by rewrite (resolve_current_hit r s1 id page).
    + intros s2 Hmiss2. split.
      * intros id page (Hcur & Hid & Hget).
        destruct Hmiss2 as [[Hnone ->]|(id' & page' & (Heq & _) & _ & ->)].
        -- by destruct (Hnone id page).
        -- rewrite Hcur in Heq. injection Heq as <-. simpl.
           rewrite JsMap_keys_delete. tauto.
      * rewrite (resolve_current_miss r s1 s2 Hmiss2).
        split; [apply create_page_opened|].
        intros page Hopen. rewrite create_page_opened, Hopen. simpl.
        rewrite JsMap_get_set, !lookup_insert_eq. done.
  - destruct (explicit_rule_total r pageId s0) as [Hhit|[s1 Hmiss]];
      [by left|right].
    exists s1. split; [done|]. apply current_rule_total.
Qed.

Lemma getOrCreatePage_fallback_chain_witness :
  let s := run two_pages in
  let s1 := with_pages (JsMap.delete (pages s) "page_1000") s in
  let s2 := with_currentPageId None
              (with_pages (JsMap.delete (pages s1) "page_2000") s1) in
  getOrCreatePage (stale 3000 3) (Some "page_1000") s
  = (inr (3, "page_3000"),
     with_listeners (listeners s2 ++ subscriptions 3 "page_3000")
       (register "page_3000" 3 s2)).
Proof.
  intros s s1 s2.
  destruct (getOrCreatePage_fallback_chain (stale 3000 3) (Some "page_1000")
              s s 0) as (_ & Hfall & _).
  - vm_compute. reflexivity.
  - destruct (Hfall s1) as (_ & _ & Hcreate).
    + right. exists "page_1000", 1. repeat split; done.
    + destruct (Hcreate s2) as (_ & Hresult & _).
      * right. exists "page_2000", 2. repeat split; done.
      * exact Hresult.
Defined.

(** ** Page identifiers *)

Lemma page_id_inj (t1 t2 : Z) : page_id t1 = page_id t2 → t1 = t2.
Proof.
  unfold page_id. simpl. intros H. simplify_eq.
  by apply (inj pretty).
Qed.

(** C8 (as worded, refuted): two new-page requests served at the same clock
    reading get the same identifier, and the second registration replaces
    the first page in [pages]. *)
Lemma page_id_reused_same_clock :
  let first := new_page (chrome 1000 1) None state in
  let second := new_page (chrome 1000 2) None first.2 in
  first.1 = Success ("page_1000", "about:blank")
  ∧ second.1 = Success ("page_1000", "about:blank")
  ∧ pages first.2 = [("page_1000", 1)]
  ∧ pages second.2 = [("page_1000", 2)].
Proof. vm_compute. done. Qed.

(** C8 (amended): both places that register a page name it
    [page_id (Date_now r)], the text page_ followed by the clock reading in
    decimal, and two clock readings give the same identifier exactly when
    they are equal: pages registered at different readings get distinct
    identifiers. *)
Theorem page_id_function_of_clock :
  (∀ r url s id u s',
     new_page r url s = (Success (id, u), s') → id = page_id (Date_now r))
  ∧ (∀ r s page id s',
       create_page r s = (inr (page, id), s') → id = page_id (Date_now r))
  ∧ (∀ t1 t2, page_id t1 = page_id t2 ↔ t1 = t2).
Proof.
  split; [|split].
  - intros r url s id u s' Hreply.
    assert ((λ x : Reply (string * string) * SessionState,
               ∀ id u, x.1 = Success (id, u) → id = page_id (Date_now r))
              (new_page r url s)) as H.
    { unfold new_page, launchBrowser. apply wp_handler.
      wp_run; try case_exn; simpl; intros; simplify_eq; done. }
    apply (H id u). by rewrite Hreply.
  - intros r s page id s' Hres. rewrite create_page_opened in Hres.
    destruct (opened_tab r); simplify_eq/=; done.
  - intros t1 t2. split; [apply page_id_inj|by intros ->].
Qed.

Lemma page_id_function_of_clock_witness :
  "page_1000" = page_id (Date_now (chrome 1000 1))
  ∧ (page_id 1000 = page_id 2000 ↔ 1000%Z = 2000%Z).
Proof.
  destruct page_id_function_of_clock as (Hnew & _ & Hinj). split.
  - apply (Hnew (chrome 1000 1) None state "page_1000" "about:blank"
             (new_page (chrome 1000 1) None state).2).
    vm_compute. reflexivity.
  - apply Hinj.
Defined.

(** ** close-page *)

(** What close-page does to the state once [page.close()] has resolved. *)
Lemma close_page_reply_state r pageId s :
  (∀ code e, (close_page r pageId s).1 = Failure code e →
             (close_page r pageId s).2 = s).
Proof.
  intros code e.
  apply (wp_handler _ (λ x, x.1 = Failure code e → x.2 = s)).
  wp_run; simpl; done.
Qed.

(** C9: if [page.close()] rejects with [e], close-page replies
    [{success: false, error: e}] with status 500 and the session state is
    the one before the request; more generally close-page changes the state
    only when it replies [{success: true}]. *)
Theorem close_page_atomic_on_error
    (r : Remote) (pageId : option string) (s : SessionState) :
  (∀ id page e,
     js_or pageId (currentPageId s) = Some id → id ≠ "" →
     JsMap.get (pages s) id = Some page →
     page_close r page = Some e →
     close_page r pageId s = (Failure 500 e, s))
  ∧ (∀ code e,
       (close_page r pageId s).1 = Failure code e →
       (close_page r pageId s).2 = s).
Proof.
  split; [|apply close_page_reply_state].
  intros id page e Hid Hne Hget Hclose.
  apply (wp_handler _ (λ x, x = (Failure 500 e, s))).
  wp_run; simplify_eq/=; try done.
  by rewrite bool_decide_eq_true_2 in * by done.
Qed.

Lemma close_page_atomic_on_error_witness :
  close_page (unclosable 3000 3) None (run two_pages)
  = (Failure 500 "Error: Protocol error (Target.closeTarget)", run two_pages).
Proof.
  apply (proj1 (close_page_atomic_on_error (unclosable 3000 3) None
                  (run two_pages)) "page_2000" 2).
  - vm_compute. reflexivity.
  - done.
  - vm_compute. reflexivity.
  - reflexivity.
Defined.

(** ** Log queries *)

(** C10 (as worded, refuted): the empty string is not a key of the console
    buffer map, yet a query with [page] empty is answered with the current
    page's messages: the empty identifier is falsy and [currentPageId] is
    used in its place. *)
Lemma console_query_empty_id_refuted :
  consoleMessages one_message !! "" = None
  ∧ get_console (Some "") one_message
    = (Success (Some "page_1000", [tick_message]), one_message).
Proof. vm_compute. done. Qed.

(** C10 (amended): a console or network query with a non-empty page
    identifier that is not a key of the buffer map, or without identifier
    (absent or empty) while [currentPageId] is [null], is answered
    [{success: true}] with that identifier and an empty list; no query
    changes the session state.  An identifier that is absent or empty
    falls back to [currentPageId]: the query is answered with the current
    page's identifier and its log. *)
Theorem log_query_unknown_page (page : option string) (s : SessionState) :
  (∀ id, page = Some id → id ≠ "" →
         (consoleMessages s !! id = None →
          get_console page s = (Success (Some id, []), s))
         ∧ (networkRequests s !! id = None →
            get_network page s = (Success (Some id, []), s)))
  ∧ (truthy page = false → currentPageId s = None →
     get_console page s = (Success (None, []), s)
     ∧ get_network page s = (Success (None, []), s))
  ∧ (get_console page s).2 = s
  ∧ (get_network page s).2 = s
  ∧ (truthy page = false →
     ∀ current, currentPageId s = Some current → current ≠ "" →
       get_console page s
       = (Success (Some current, default [] (consoleMessages s !! current)), s)
       ∧ get_network page s
         = (Success (Some current,
                     default [] (networkRequests s !! current)), s)).
Proof.
  unfold get_console, get_network, handler, js_or. async_unfold.
  split; [|split; [|split; [done|split; [done|]]]].
  - intros id -> Hid. unfold truthy.
    rewrite bool_decide_eq_true_2 by done. simpl.
    rewrite bool_decide_eq_true_2 by done.
    split; by intros ->.
  - intros -> ->. done.
  - intros -> current -> Hne. unfold truthy.
    by rewrite bool_decide_eq_true_2 by done.
Qed.

Lemma log_query_unknown_page_witness :
  get_console (Some "page_9") one_message
  = (Success (Some "page_9", []), one_message)
  ∧ get_network None state = (Success (None, []), state).
Proof.
  destruct (log_query_unknown_page (Some "page_9") one_message)
    as (Hunknown & _).
  destruct (log_query_unknown_page None state) as (_ & Hnull & _).
  split.
  - apply (Hunknown "page_9"); [reflexivity|done|vm_compute; reflexivity].
  - apply Hnull; reflexivity.
Defined.

(** ** Registration and event subscriptions *)

(** Creation in [getOrCreatePage] registers the page with empty buffers and
    the three subscriptions before it returns. *)
Lemma create_page_subscribed r s page id s' :
  create_page r s = (inr (page, id), s') →
  JsMap.get (pages s') id = Some page
  ∧ consoleMessages s' !! id = Some []
  ∧ networkRequests s' !! id = Some []
  ∧ ∀ kind, {| on_page := page; on_kind := kind; on_newPageId := id |}
            ∈ listeners s'.
Proof.
  rewrite create_page_opened. destruct (opened_tab r) as [e|tab]; [done|].
  intros [= <- <- <-]. simpl.
  rewrite JsMap_get_set, !lookup_insert_eq. repeat split; try done.
  intros kind. apply elem_of_app. right. unfold subscriptions.
  destruct kind; set_solver.
Qed.

Lemma new_page_listeners r url s :
  listeners (new_page r url s).2 = listeners s.
Proof.
  unfold new_page, launchBrowser.
  apply (wp_handler _ (λ x, listeners x.2 = listeners s)).
  wp_run; done.
Qed.

(** C3 (the new-page path): new-page registers the page and creates its two
    empty buffers, but installs no subscription; a console message and a
    request of that page are then not captured, while the same events on a
    page registered by [getOrCreatePage] are. *)
Theorem new_page_installs_no_subscription :
  (∀ r url s, listeners (new_page r url s).2 = listeners s)
  ∧ (let s := run [NewPage (chrome 2000 2) None] in
     pages s = [("page_2000", 2)]
     ∧ consoleMessages s !! "page_2000" = Some []
     ∧ networkRequests s !! "page_2000" = Some []
     ∧ listeners s = []
     ∧ consoleMessages (exec s (Emit 2 tick)) !! "page_2000" = Some []
     ∧ networkRequests (exec s (Emit 2 get_api)) !! "page_2000" = Some [])
  ∧ (let s := run [PageCommand (chrome 2000 2)] in
     pages s = [("page_2000", 2)]
     ∧ listeners s = subscriptions 2 "page_2000"
     ∧ consoleMessages (exec s (Emit 2 tick)) !! "page_2000"
       = Some [tick_message]
     ∧ networkRequests (exec s (Emit 2 get_api)) !! "page_2000"
       = Some [api_pending]).
Proof.
  split; [apply new_page_listeners|]. vm_compute. done.
Qed.


(** ** Interleaved handlers *)

(** An uninterrupted handler run is the sequence of its blocks. *)
Ltac solve_blocks :=
  unfold blocks_of, resolution_blocks, creation_blocks, opened_tab;
  simpl in *; unfold JsMap.has in *;
  repeat (case_match; simplify_eq/=; try done);
  try congruence.

Lemma exec_blocks s c : exec s c = foldl block s (blocks_of s c).
Proof.
  destruct c as [r|page|page|r pageId|r url|r pageId| |page e];
    cbn [exec]; try done;
    unfold page_command, select_page, new_page, close_page.
  - apply (wp_handler _
             (λ x, x.2 = foldl block s (blocks_of s (PageCommand r)))).
    unfold getOrCreatePage, launchBrowser, resolve_explicit, resolve_current,
      create_page.
    wp_run; solve_blocks.
  - apply (wp_handler _
             (λ x, x.2 = foldl block s (blocks_of s (SelectPage r pageId)))).
    wp_run; solve_blocks.
  - apply (wp_handler _
             (λ x, x.2 = foldl block s (blocks_of s (NewPage r url)))).
    unfold launchBrowser. wp_run; solve_blocks.
  - apply (wp_handler _
             (λ x, x.2 = foldl block s (blocks_of s (ClosePage r pageId)))).
    wp_run; solve_blocks.
Qed.

Lemma foldl_block_keeps (P : SessionState → Prop) :
  (∀ s k, P s → P (block s k)) → ∀ bs s, P s → P (foldl block s bs).
Proof.
  intros Hblock bs. induction bs as [|k bs IH]; intros s Hs; simpl; auto.
Qed.

Lemma block_current_registered s k :
  current_registered s → current_registered (block s k).
Proof.
  intros Hs. destruct k as [b| | |page now subscribe|pageId|id|page e]; simpl.
  - done.
  - done.
  - by destruct (currentPageId s).
  - destruct subscribe; unfold current_registered; simpl;
      apply JsMap_keys_set; by left.
  - destruct (JsMap.has (pages s) pageId) eqn:Hhas; [|done].
    by apply JsMap_has_true in Hhas.
  - case_decide as Hcur; unfold current_registered in *; simpl in *.
    + apply js_or_first_key.
    + destruct (currentPageId s) as [c|]; [|done].
      apply JsMap_keys_delete. split; [congruence|done].
  - apply emit_keeps; [|done]. intros id s' Hs'.
    unfold current_registered. by rewrite handle_pages, handle_currentPageId.
Qed.

Lemma block_buffers_bounded s k :
  buffers_bounded s → buffers_bounded (block s k).
Proof.
  intros Hs. destruct k as [b| | |page now subscribe|pageId|id|page e]; simpl.
  - done.
  - done.
  - by destruct (currentPageId s).
  - destruct Hs. destruct subscribe; split; simpl;
      (apply map_Forall_insert_2; [simpl; lia|done]).
  - by destruct (JsMap.has (pages s) pageId).
  - destruct Hs. case_decide; split; simpl; by apply map_Forall_delete.
  - apply emit_keeps; [|done]. intros id s'. apply handle_buffers_bounded.
Qed.

(** Under any interleaving of the handlers' blocks, [currentPageId] is
    [null] or a key of [pages], and no buffer exceeds its capacity. *)
Lemma interleaved_invariants (bs : list Block) :
  current_registered (foldl block state bs)
  ∧ buffers_bounded (foldl block state bs).
Proof.
  split.
  - by apply foldl_block_keeps; [apply block_current_registered|].
  - apply foldl_block_keeps; [apply block_buffers_bounded|].
    split; apply map_Forall_empty.
Qed.

(** Every run of uninterrupted handlers is one of these interleavings. *)
Lemma run_is_interleaving (cs : list Command) :
  ∃ bs, run cs = foldl block state bs.
Proof.
  unfold run. induction cs as [|c cs IH] using rev_ind.
  - by exists [].
  - destruct IH as [bs IH]. rewrite foldl_snoc, exec_blocks, IH.
    exists (bs ++ blocks_of (foldl block state bs) c). by rewrite foldl_app.
Qed.

(** * Further properties of the code *)

Lemma with_browser_id (s : SessionState) b :
  browser s = Some b → with_browser (Some b) s = s.
Proof. destruct s; simpl. by intros ->. Qed.

(** X1: once [launchBrowser] has returned a browser, calling it again
    returns the same browser and leaves the state as it is, whatever the
    remote side would answer to an attach; the first call changed nothing
    but the [browser] field. *)
Theorem launchBrowser_idempotent
    (r r' : Remote) (s s1 : SessionState) (b : Browser) :
  launchBrowser r s = (inr b, s1) →
  s1 = with_browser (Some b) s
  ∧ launchBrowser r' s1 = (inr b, s1).
Proof.
  unfold launchBrowser. async_unfold. 
  destruct (browser s) as [b0|] eqn:Hb.
  - intros [= <- <-]. rewrite Hb. by rewrite with_browser_id.
  - destruct (connect_loop r 0 2) as [e|[b1|]]; [done| |done].
    intros [= <- <-]. done.
Qed.

Lemma launchBrowser_detached r s :
  browser s = None → puppeteer_connect r 0 = None →
  launchBrowser r s
  = match startChromeWithDebugging r with
    | inl e => (inl e, s)
    | inr _ =>
        match puppeteer_connect r 1 with
        | Some b => (inr b, with_browser (Some b) s)
        | None => (inl (Thrown connect_failed), s)
        end
    end.
Proof.
  intros Hb H0. unfold launchBrowser. async_unfold. rewrite Hb. simpl.
  rewrite H0. destruct (startChromeWithDebugging r) as [e|[]]; [done|].
  by destruct (puppeteer_connect r 1).
Qed.

(** X2: [launchBrowser] ends without a browser only when the session has
    none and the first attach is refused, and it leaves the state as it
    was.  It then starts Chrome, on the daemon's own profile directory when
    a Chrome is running already.  If that directory is missing and
    [mkdirSync] throws, or [spawn] throws, the exception leaves
    [launchBrowser] without a second attach, and a page command replies 500
    with it.  If the child emits ['error'] the process exits and the
    command gets no reply.  If Chrome was started, the second attach decides:
    its browser is stored and returned, or the connect message is thrown. *)
Theorem launchBrowser_error_paths (r : Remote) (s : SessionState) :
  (∀ e s1, launchBrowser r s = (inl e, s1) →
     s1 = s ∧ browser s = None ∧ puppeteer_connect r 0 = None)
  ∧ (browser s = None → puppeteer_connect r 0 = None →
     (∀ e, isChromeRunning r = true → profileDir_exists r = false →
           mkdirSync_profileDir r = Some e →
           launchBrowser r s = (inl (Thrown e), s)
           ∧ page_command r s = (Failure 500 e, s))
     ∧ ((isChromeRunning r = true → profileDir_exists r = false →
         mkdirSync_profileDir r = None) →
        match spawn_chrome r (negb (isChromeRunning r)) with
        | SpawnThrows e =>
            launchBrowser r s = (inl (Thrown e), s)
            ∧ page_command r s = (Failure 500 e, s)
        | SpawnError e =>
            launchBrowser r s = (inl (Uncaught e), s)
            ∧ page_command r s = (NoReply, s)
        | Spawned =>
            match puppeteer_connect r 1 with
            | Some b => launchBrowser r s = (inr b, with_browser (Some b) s)
            | None =>
                launchBrowser r s = (inl (Thrown connect_failed), s)
                ∧ page_command r s = (Failure 500 connect_failed, s)
            end
        end)).
Proof.
  assert (∀ e, launchBrowser r s = (inl e, s) →
               page_command r s = (on_exn e, s)) as Hcommand.
  { intros e He. unfold page_command, handler, getOrCreatePage.
    unfold mbind at 1. unfold Async_bind at 1.
    unfold mbind at 1. unfold Async_bind at 1. by rewrite He. }
  split.
  - intros e s1. unfold launchBrowser. async_unfold. simpl.
    destruct (browser s); [done|].
    destruct (puppeteer_connect r 0); [done|].
    destruct (startChromeWithDebugging r) as [e'|[]]; [by intros [= <- <-]|].
    destruct (puppeteer_connect r 1); [done|]. by intros [= <- <-].
  - intros Hb H0. pose proof (launchBrowser_detached r s Hb H0) as Hlaunch.
    unfold startChromeWithDebugging in Hlaunch. split.
    + intros e Hrun Hdir Hmk.
      rewrite Hrun, Hdir, Hmk in Hlaunch. simpl in Hlaunch.
      split; [done|]. by apply (Hcommand (Thrown e)).
    + intros Hmk.
      assert ((if negb (negb (isChromeRunning r)) && negb (profileDir_exists r)
               then mkdirSync_profileDir r else None) = None) as Hnone.
      { destruct (isChromeRunning r); [|done].
        destruct (profileDir_exists r); [done|]. simpl. by apply Hmk. }
      rewrite Hnone in Hlaunch.
      destruct (spawn_chrome r (negb (isChromeRunning r))) as [|e|e].
      * destruct (puppeteer_connect r 1); [done|].
        split; [done|]. by apply (Hcommand (Thrown connect_failed)).
      * split; [done|]. by apply (Hcommand (Thrown e)).
      * split; [done|]. by apply (Hcommand (Uncaught e)).
Qed.

(** ** Registered pages have their buffers *)

Lemma run_blocks_keeps (P : SessionState → Prop) :
  P state → (∀ s k, P s → P (block s k)) → ∀ cs, P (run cs).
Proof.
  intros Hinit Hblock cs. destruct (run_is_interleaving cs) as [bs ->].
  by apply foldl_block_keeps.
Qed.

Lemma handle_dom_console id e s :
  dom (consoleMessages (handle id e s)) = dom (consoleMessages s).
Proof.
  destruct e; simpl; unfold on_console, on_request, on_response;
    case_match eqn:Hbuf; simpl; try done.
  apply set_eq. intros k. rewrite dom_insert, elem_of_union, elem_of_singleton.
  split; [intros [->|?]; [by apply elem_of_dom|done]|by right].
Qed.

Lemma handle_dom_network id e s :
  dom (networkRequests (handle id e s)) = dom (networkRequests s).
Proof.
  destruct e; simpl; unfold on_console, on_request, on_response;
    case_match eqn:Hbuf; simpl; try done.
  all: apply set_eq; intros k;
    rewrite dom_insert, elem_of_union, elem_of_singleton;
    (split; [intros [->|?]; [by apply elem_of_dom|done]|by right]).
Qed.

Lemma emit_dom_console page e s :
  dom (consoleMessages (emit page e s)) = dom (consoleMessages s).
Proof.
  apply (emit_keeps (λ s', dom (consoleMessages s') = dom (consoleMessages s)));
    [|done].
  intros id s' <-. apply handle_dom_console.
Qed.

Lemma emit_dom_network page e s :
  dom (networkRequests (emit page e s)) = dom (networkRequests s).
Proof.
  apply (emit_keeps (λ s', dom (networkRequests s') = dom (networkRequests s)));
    [|done].
  intros id s' <-. apply handle_dom_network.
Qed.

Lemma emit_pages page e s : pages (emit page e s) = pages s.
Proof.
  apply (emit_keeps (λ s', pages s' = pages s)); [|done].
  intros id s' <-. apply handle_pages.
Qed.

Lemma emit_currentPageId page e s :
  currentPageId (emit page e s) = currentPageId s.
Proof.
  apply (emit_keeps (λ s', currentPageId s' = currentPageId s)); [|done].
  intros id s' <-. apply handle_currentPageId.
Qed.

Lemma pages_have_buffers_alt s :
  pages_have_buffers s ↔
  (∀ k, k ∈ JsMap.keys (pages s) → k ∈ dom (consoleMessages s))
  ∧ dom (consoleMessages s) = dom (networkRequests s).
Proof.
  unfold pages_have_buffers. split.
  - intros [Hk Hdom]. split; [|done]. intros k Hin. apply elem_of_dom.
    by apply Hk.
  - intros [Hk Hdom]. split; [|done]. intros k Hin. split.
    + by apply elem_of_dom, Hk.
    + apply elem_of_dom. rewrite <- Hdom. by apply Hk.
Qed.

Lemma block_pages_have_buffers s k :
  pages_have_buffers s → pages_have_buffers (block s k).
Proof.
  rewrite !pages_have_buffers_alt. intros [Hk Hdom].
  destruct k as [b| | |page now subscribe|pageId|id|page e]; simpl.
  - done.
  - split; [|done]. by intros k ?%elem_of_nil.
  - destruct (currentPageId s); [|done]. split; [|done]. simpl.
    intros k [_ Hin]%JsMap_keys_delete. auto.
  - assert ((∀ k, k ∈ JsMap.keys (JsMap.set (pages s) (page_id now) page) →
                  k ∈ dom (<[page_id now := []]> (consoleMessages s)))
            ∧ dom (<[page_id now := @nil ConsoleMessage]> (consoleMessages s))
              = dom (<[page_id now := @nil NetworkRequest]> (networkRequests s)))
      as Hgoal.
    { split.
      - intros k [->|Hin]%JsMap_keys_set;
          rewrite dom_insert, elem_of_union, elem_of_singleton;
          [by left|right; auto].
      - rewrite !dom_insert_L. by rewrite Hdom. }
    by destruct subscribe.
  - by destruct (JsMap.has (pages s) pageId).
  - assert ((∀ k, k ∈ JsMap.keys (JsMap.delete (pages s) id) →
                  k ∈ dom (delete id (consoleMessages s)))
            ∧ dom (delete id (consoleMessages s))
              = dom (delete id (networkRequests s))) as Hgoal.
    { split.
      - intros k [Hne Hin]%JsMap_keys_delete. rewrite dom_delete.
        apply elem_of_difference. split; [auto|]. by intros ?%elem_of_singleton.
      - rewrite !dom_delete_L. by rewrite Hdom. }
    by case_decide.
  - rewrite emit_pages, emit_dom_console, emit_dom_network. done.
Qed.

Lemma run_pages_have_buffers cs : pages_have_buffers (run cs).
Proof.
  apply run_blocks_keeps; [|apply block_pages_have_buffers].
  split; [by intros k ?%elem_of_nil|done].
Qed.

(** X3: after any sequence of commands and events, every key of [pages]
    has a console buffer and a network buffer, and the two buffer maps have
    the same keys. *)
Theorem registered_pages_have_buffers (cs : list Command) :
  (∀ id, JsMap.has (pages (run cs)) id = true →
         (∃ messages, consoleMessages (run cs) !! id = Some messages)
         ∧ (∃ requests, networkRequests (run cs) !! id = Some requests))
  ∧ dom (consoleMessages (run cs)) = dom (networkRequests (run cs)).
Proof.
  destruct (run_pages_have_buffers cs) as [Hk Hdom]. split; [|done].
  intros id Hhas%JsMap_has_true.
  destruct (Hk id Hhas) as [[m Hm] [n Hn]]. eauto.
Qed.

(** ** [pages] holds each key once *)

Section js_map_nodup.
Context {V : Type}.
Implicit Types (m : list (string * V)) (k : string) (v : V).

Lemma JsMap_keys_set_new m k v :
  k ∉ JsMap.keys m → JsMap.keys (JsMap.set m k v) = JsMap.keys m ++ [k].
Proof.
  unfold JsMap.keys. induction m as [|[k0 v0] m IH]; simpl; [done|].
  intros Hk. apply not_elem_of_cons in Hk as [Hne Hk].
  case_decide; [congruence|]. rewrite !fmap_cons. simpl. f_equal. by apply IH.
Qed.

Lemma JsMap_keys_set_old m k v :
  k ∈ JsMap.keys m → JsMap.keys (JsMap.set m k v) = JsMap.keys m.
Proof.
  unfold JsMap.keys. induction m as [|[k0 v0] m IH]; simpl.
  - by intros ?%elem_of_nil.
  - intros Hk. case_decide as Heq; rewrite !fmap_cons; simpl;
      [by rewrite Heq|].
    apply elem_of_cons in Hk as [->|Hk]; [done|]. f_equal. by apply IH.
Qed.

Lemma JsMap_keys_delete_filter m k :
  JsMap.keys (JsMap.delete m k) = filter (λ x, x ≠ k) (JsMap.keys m).
Proof.
  unfold JsMap.keys. induction m as [|[k0 v0] m IH]; simpl; [done|].
  case_decide as Heq.
  - rewrite filter_cons_False by (simpl; congruence). done.
  - rewrite filter_cons_True by done. rewrite fmap_cons. simpl. f_equal.
    apply IH.
Qed.

Lemma JsMap_set_NoDup m k v :
  NoDup (JsMap.keys m) → NoDup (JsMap.keys (JsMap.set m k v)).
Proof.
  intros Hm. destruct (decide (k ∈ JsMap.keys m)) as [Hin|Hout].
  - by rewrite JsMap_keys_set_old.
  - rewrite JsMap_keys_set_new by done. apply NoDup_app.
    split; [done|]. split; [|apply NoDup_singleton].
    intros x Hx ->%list_elem_of_singleton. done.
Qed.

Lemma JsMap_delete_NoDup m k :
  NoDup (JsMap.keys m) → NoDup (JsMap.keys (JsMap.delete m k)).
Proof. rewrite JsMap_keys_delete_filter. apply NoDup_filter. Qed.
End js_map_nodup.

Lemma block_keys_unique s k : keys_unique s → keys_unique (block s k).
Proof.
  unfold keys_unique. intros Hs.
  destruct k as [b| | |page now subscribe|pageId|id|page e]; simpl.
  - done.
  - apply NoDup_nil_2.
  - destruct (currentPageId s); [|done]. by apply JsMap_delete_NoDup.
  - destruct subscribe; by apply JsMap_set_NoDup.
  - by destruct (JsMap.has (pages s) pageId).
  - case_decide; by apply JsMap_delete_NoDup.
  - by rewrite emit_pages.
Qed.

Lemma run_keys_unique cs : keys_unique (run cs).
Proof.
  apply run_blocks_keeps; [apply NoDup_nil_2|apply block_keys_unique].
Qed.

(** ** The listing and the health report *)

(** X4: in any reachable state [/pages] lists exactly the keys of [pages],
    in insertion order and each once, as many as [/health] counts; it
    leaves the state unchanged, and the [currentPageId] it reports is
    [null] or one of the listed identifiers. *)
Theorem pages_listing_matches_registry
    (cs : list Command) (r : Remote) (page_title : Page → string + string) :
  let s := run cs in
  ∃ infos,
    get_pages r page_title s = (Success (currentPageId s, infos), s)
    ∧ info_id <$> infos = JsMap.keys (pages s)
    ∧ NoDup (info_id <$> infos)
    ∧ length infos = (health s).2
    ∧ (currentPageId s = None
       ∨ ∃ id, currentPageId s = Some id ∧ id ∈ info_id <$> infos).
Proof.
  intros s. exists (page_info r page_title <$> pages s).
  assert (info_id <$> (page_info r page_title <$> pages s)
          = JsMap.keys (pages s)) as Hids.
  { unfold JsMap.keys. rewrite <- list_fmap_compose. apply list_fmap_ext.
    intros i [k p] _. unfold page_info. simpl. by destruct (page_title p). }
  split; [done|]. rewrite Hids. split; [done|].
  split; [apply run_keys_unique|]. split.
  - unfold health, JsMap.size. simpl. by rewrite length_fmap.
  - pose proof (run_keeps current_registered I exec_current_registered cs) as H.
    unfold current_registered in H. fold s in H.
    destruct (currentPageId s) as [id|]; [right; eauto|by left].
Qed.

Lemma exec_pages_need_browser s c :
  pages_need_browser s → pages_need_browser (exec s c).
Proof.
  intros Hs. destruct c as [r|page|page|r pageId|r url|r pageId| |page e];
    cbn [exec];
    unfold page_command, get_console, get_network, select_page, new_page,
      close_page.
  - apply (keeps_handler pages_need_browser); [|done]. intros s' Hs'.
    unfold getOrCreatePage, launchBrowser, resolve_explicit, resolve_current,
      create_page.
    unfold pages_need_browser in *.
    wp_run; simpl in *; try done; try congruence.
    all: intros Hb; destruct Hs' as [Hp Hc]; [done || congruence|];
      rewrite ?Hp in *; done || congruence.
  - done.
  - done.
  - apply (keeps_handler pages_need_browser); [|done]. intros s' Hs'.
    unfold pages_need_browser in *.
    wp_run; simpl in *; try done.
    all: intros Hb; destruct Hs' as [Hp Hc]; [done || congruence|];
      rewrite ?Hp in *; done || congruence.
  - apply (keeps_handler pages_need_browser); [|done]. intros s' Hs'.
    unfold launchBrowser. unfold pages_need_browser in *.
    wp_run; simpl in *; try done; try congruence.
    all: intros Hb; by apply Hs'.
  - apply (keeps_handler pages_need_browser); [|done]. intros s' Hs'.
    unfold pages_need_browser in *.
    wp_run; simpl in *; try done.
    all: intros Hb; destruct Hs' as [Hp Hc]; [done || congruence|];
      rewrite ?Hp in *; done || congruence.
  - done.
  - unfold pages_need_browser in *.
    rewrite emit_pages, emit_currentPageId.
    assert (browser (emit page e s) = browser s) as ->; [|done].
    apply (emit_keeps (λ s', browser s' = browser s)); [|done].
    intros id s' <-. destruct e; simpl;
      unfold on_console, on_request, on_response; by case_match.
Qed.

(** X5: whenever [/health] reports no browser, it reports zero pages, and
    [currentPageId] is [null] (handler runs taken one at a time). *)
Theorem health_disconnected_no_pages (cs : list Command) :
  (health (run cs)).1 = false →
  (health (run cs)).2 = 0 ∧ currentPageId (run cs) = None
  ∧ pages (run cs) = [].
Proof.
  unfold health. simpl. intros Hb.
  assert (browser (run cs) = None) as Hnone.
  { apply bool_decide_eq_false in Hb. destruct (browser (run cs)); [|done].
    destruct Hb. by eexists. }
  destruct (run_keeps pages_need_browser) with (cs := cs) as [Hp Hc];
    [done|apply exec_pages_need_browser|done|].
  by rewrite Hp.
Qed.

Lemma block_keeps_buffer s k id :
  (∀ i, k = Closed i → i ≠ id) →
  (id ∈ dom (consoleMessages s) → id ∈ dom (consoleMessages (block s k)))
  ∧ (id ∈ dom (networkRequests s) → id ∈ dom (networkRequests (block s k))).
Proof.
  intros Hk.
  destruct k as [b| | |page now subscribe|pageId|i|page e]; simpl.
  - done.
  - done.
  - by destruct (currentPageId s).
  - destruct subscribe; simpl; rewrite !dom_insert, !elem_of_union; auto.
  - by destruct (JsMap.has (pages s) pageId).
  - assert (i ≠ id) as Hne by auto.
    case_decide; simpl; rewrite !dom_delete, !elem_of_difference,
      !elem_of_singleton; split; intros ?; split; auto.
  - by rewrite emit_dom_console, emit_dom_network.
Qed.

Lemma blocks_keep_buffer bs s id :
  Closed id ∉ bs →
  (id ∈ dom (consoleMessages s) →
   id ∈ dom (consoleMessages (foldl block s bs)))
  ∧ (id ∈ dom (networkRequests s) →
     id ∈ dom (networkRequests (foldl block s bs))).
Proof.
  revert s. induction bs as [|k bs IH]; intros s Hnot; simpl; [done|].
  apply not_elem_of_cons in Hnot as [Hk Hbs].
  destruct (block_keeps_buffer s k id) as [Hc Hn]; [congruence|].
  destruct (IH (block s k) Hbs) as [Hc' Hn']. auto.
Qed.

Lemma blocks_of_Closed s c id :
  Closed id ∈ blocks_of s c →
  ∃ r pageId page,
    c = ClosePage r pageId ∧ js_or pageId (currentPageId s) = Some id
    ∧ JsMap.get (pages s) id = Some page ∧ page_close r page = None.
Proof.
  destruct c as [r|page|page|r pageId|r url|r pageId| |page e];
    unfold blocks_of, resolution_blocks, creation_blocks.
  - repeat case_match; rewrite ?elem_of_cons, ?elem_of_nil;
      intros Hin; decompose [or] Hin; done.
  - by intros ?%elem_of_nil.
  - by intros ?%elem_of_nil.
  - repeat case_match; rewrite ?elem_of_cons, ?elem_of_nil;
      intros Hin; decompose [or] Hin; done.
  - simpl. repeat case_match; rewrite ?elem_of_cons, ?elem_of_nil;
      intros Hin; decompose [or] Hin; done.
  - destruct (js_or pageId (currentPageId s)) as [i|] eqn:Hi;
      [|by intros ?%elem_of_nil].
    destruct (truthy (Some i)); [|by intros ?%elem_of_nil].
    destruct (JsMap.get (pages s) i) as [page|] eqn:Hget;
      [|by intros ?%elem_of_nil].
    destruct (page_close r page) eqn:Hclose; [by intros ?%elem_of_nil|].
    intros [= <-]%list_elem_of_singleton. by exists r, pageId, page.
  - intros [=]%list_elem_of_singleton.
  - intros [=]%list_elem_of_singleton.
Qed.

(** X6: a console or network buffer that exists before a command and is
    gone after it was removed by a close-page whose target is that very
    identifier and whose [page.close()] succeeded.  No other command or
    event (navigation, eviction of a dead page, disconnect) deletes a
    buffer. *)
Theorem buffer_removed_only_by_close_page
    (s : SessionState) (c : Command) (id : string) :
  (consoleMessages s !! id ≠ None ∧ consoleMessages (exec s c) !! id = None)
  ∨ (networkRequests s !! id ≠ None
     ∧ networkRequests (exec s c) !! id = None) →
  ∃ r pageId page,
    c = ClosePage r pageId ∧ js_or pageId (currentPageId s) = Some id
    ∧ JsMap.get (pages s) id = Some page ∧ page_close r page = None.
Proof.
  intros Hgone. apply blocks_of_Closed.
  destruct (decide (Closed id ∈ blocks_of s c)) as [|Hnot]; [done|].
  rewrite exec_blocks in Hgone.
  destruct (blocks_keep_buffer (blocks_of s c) s id Hnot) as [Hc Hn].
  destruct Hgone as [[Hin Hout]|[Hin Hout]];
    apply not_elem_of_dom in Hout; destruct Hout; [apply Hc|apply Hn];
    by apply elem_of_dom, not_eq_None_Some.
Qed.

(** ** Subscriptions are never removed *)

Lemma emit_listeners page e s : listeners (emit page e s) = listeners s.
Proof.
  apply (emit_keeps (λ s', listeners s' = listeners s)); [|done].
  intros id s' <-. destruct e; simpl;
    unfold on_console, on_request, on_response; by case_match.
Qed.

Lemma block_listeners_prefix s k :
  listeners s `prefix_of` listeners (block s k).
Proof.
  destruct k as [b| | |page now subscribe|pageId|i|page e]; simpl; try done.
  - by destruct (currentPageId s).
  - destruct subscribe; simpl; [by apply prefix_app_r|done].
  - by destruct (JsMap.has (pages s) pageId).
  - by case_decide.
  - by rewrite emit_listeners.
Qed.

(** X7: no sequence of commands and events removes or reorders a
    subscription: the listeners before it are a prefix of the listeners
    after it. *)
Theorem listeners_only_grow (s : SessionState) (cs : list Command) :
  listeners s `prefix_of` listeners (foldl exec s cs).
Proof.
  revert s. induction cs as [|c cs IH]; intros s; simpl; [done|].
  etrans; [|apply IH]. rewrite exec_blocks.
  generalize (blocks_of s c). intros bs. revert s.
  induction bs as [|k bs IHbs]; intros s; simpl; [done|].
  etrans; [apply block_listeners_prefix|apply IHbs].
Qed.

(** ** The log is the latest 1000 entries, in arrival order *)

Lemma push_capped_all {A : Type} (buf xs : list A) :
  length buf ≤ capacity →
  foldl push_capped buf xs
  = drop (length buf + length xs - capacity) (buf ++ xs).
Proof.
  revert buf. induction xs as [|x xs IH]; intros buf Hbuf; simpl.
  - rewrite app_nil_r. replace (length buf + 0 - capacity) with 0 by lia.
    done.
  - rewrite IH by by apply push_capped_length.
    destruct (decide (length buf < capacity)) as [Hroom|Hfull].
    + rewrite push_capped_room by done. rewrite length_app. simpl.
      rewrite <- app_assoc. simpl. f_equal. lia.
    + rewrite push_capped_full by lia.
      destruct buf as [|y buf]; [unfold capacity in *; simpl in *; lia|].
      assert (length (y :: buf) + S (length xs) - capacity
              = S (length buf + 1 + length xs - capacity)) as ->
        by (cbn [length] in *; lia).
      change (drop 1 (y :: buf)) with (drop 0 buf).
      rewrite drop_0, length_app, <- app_assoc. done.
Qed.

Lemma on_console_all_lookup id es s buf :
  consoleMessages s !! id = Some buf →
  consoleMessages (on_console_all id es s) !! id
  = Some (foldl push_capped buf (console_entry <$> es)).
Proof.
  unfold on_console_all. revert s buf.
  induction es as [|[[type text] now] es IH]; intros s buf Hbuf; simpl; [done|].
  apply IH. unfold on_console. rewrite Hbuf. simpl.
  by rewrite lookup_insert_eq.
Qed.

(** X8: when a page's console handler receives the events [es], its buffer
    afterwards is the old buffer followed by the new entries, cut at the
    front to the latest 1000, in arrival order. *)
Theorem console_log_keeps_latest
    (cs : list Command) (id : string) (es : list (string * string * Z))
    (messages : list ConsoleMessage) :
  consoleMessages (run cs) !! id = Some messages →
  consoleMessages (on_console_all id es (run cs)) !! id
  = Some (drop (length messages + length es - 1000)
            (messages ++ (console_entry <$> es))).
Proof.
  intros Hbuf. rewrite (on_console_all_lookup id es _ messages Hbuf).
  rewrite push_capped_all, length_fmap; [done|].
  destruct (run_buffers_bounded cs) as [Hc _]. by apply (Hc id).
Qed.

(** ** A response resolves one pending request *)

Lemma find_and_set_zero url requests :
  find_and_set url 0 requests = requests.
Proof.
  induction requests as [|r rest IH]; simpl; [done|].
  destruct (pending_for url r) eqn:Hp; [|by rewrite IH].
  f_equal. unfold pending_for in Hp.
  apply andb_true_iff in Hp as [_ Hs%bool_decide_eq_true_1].
  destruct r; simpl in *. by rewrite Hs.
Qed.

Lemma pending_for_set_status url url' status r :
  pending_for url r = true → status ≠ 0%Z →
  pending_for url' (set_status status r) = false.
Proof.
  intros _ Hs. unfold pending_for, set_status. simpl.
  rewrite (bool_decide_eq_false_2 (status = 0%Z)) by done.
  apply andb_false_r.
Qed.

Lemma pending_count_cons url r rest :
  pending_count url (r :: rest)
  = (if pending_for url r then 1 else 0) + pending_count url rest.
Proof.
  unfold pending_count. destruct (pending_for url r) eqn:Hp.
  - by rewrite filter_cons_True.
  - rewrite filter_cons_False; [done|]. by rewrite Hp.
Qed.

Lemma find_and_set_pending_count url status requests :
  status ≠ 0%Z →
  pending_count url (find_and_set url status requests)
  = pending_count url requests - 1.
Proof.
  intros Hs. induction requests as [|r rest IH]; simpl; [done|].
  destruct (pending_for url r) eqn:Hp.
  - rewrite !pending_count_cons, Hp.
    rewrite (pending_for_set_status url url status r) by done. lia.
  - rewrite !pending_count_cons, Hp, IH. done.
Qed.

Lemma find_and_set_other_url url url' status requests :
  url' ≠ url →
  pending_count url' (find_and_set url status requests)
  = pending_count url' requests.
Proof.
  intros Hne. induction requests as [|r rest IH]; simpl; [done|].
  destruct (pending_for url r) eqn:Hp.
  - rewrite !pending_count_cons. f_equal.
    unfold pending_for in *. simpl.
    apply andb_true_iff in Hp as [Hu%bool_decide_eq_true_1 _].
    rewrite !(bool_decide_eq_false_2 (req_url r = url')) by congruence.
    done.
  - by rewrite !pending_count_cons, IH.
Qed.

Lemma find_and_set_fields url status requests :
  req_url <$> find_and_set url status requests = req_url <$> requests
  ∧ req_method <$> find_and_set url status requests = req_method <$> requests
  ∧ req_type <$> find_and_set url status requests = req_type <$> requests.
Proof.
  induction requests as [|r rest (IH1 & IH2 & IH3)]; simpl; [done|].
  destruct (pending_for url r); rewrite !fmap_cons; simpl; [done|].
  by rewrite IH1, IH2, IH3.
Qed.

(** X9: a response never changes the length of the buffer nor the url,
    method or type of any record; with a non-zero status it lowers the
    number of pending records for its url by one (if there is one), with
    status 0 it changes nothing; pending records for other urls are never
    affected. *)
Theorem response_resolves_one_pending
    (s : SessionState) (newPageId url : string) (status : Z)
    (requests : list NetworkRequest) :
  networkRequests s !! newPageId = Some requests →
  ∃ requests',
    networkRequests (on_response newPageId url status s) !! newPageId
    = Some requests'
    ∧ req_url <$> requests' = req_url <$> requests
    ∧ req_method <$> requests' = req_method <$> requests
    ∧ req_type <$> requests' = req_type <$> requests
    ∧ (status ≠ 0%Z →
       pending_count url requests' = pending_count url requests - 1)
    ∧ (status = 0%Z → requests' = requests)
    ∧ (∀ url', url' ≠ url →
         pending_count url' requests' = pending_count url' requests).
Proof.
  intros Hbuf. exists (find_and_set url status requests).
  unfold on_response. rewrite Hbuf. simpl. rewrite lookup_insert_eq.
  destruct (find_and_set_fields url status requests) as (Hu & Hm & Ht).
  repeat split; try done.
  - by apply find_and_set_pending_count.
  - intros ->. apply find_and_set_zero.
  - intros url' Hne. by apply find_and_set_other_url.
Qed.

(** ** Events touch nothing but buffers *)

Lemma emit_browser page e s : browser (emit page e s) = browser s.
Proof.
  apply (emit_keeps (λ s', browser s' = browser s)); [|done].
  intros id s' <-. destruct e; simpl;
    unfold on_console, on_request, on_response; by case_match.
Qed.

Lemma emit_no_listener page e s :
  (∀ l, l ∈ listeners s → on_page l = page → on_kind l ≠ kind_of e) →
  emit page e s = s.
Proof.
  unfold emit. generalize (listeners s) as ls.
  induction ls as [|l ls IH]; intros Hls; simpl; [done|].
  rewrite decide_False.
  - apply IH. intros l' Hl'. apply Hls. by right.
  - intros [Hp Hk]. eapply Hls; [by left|done..].
Qed.

(** X10: a page event changes neither the browser, the registry,
    [currentPageId], the subscriptions nor the key sets of the buffer maps;
    a console event leaves the network buffers alone and a request or
    response event the console buffers; an event for which the page has no
    listener changes nothing. *)
Theorem events_change_buffers_only
    (page : Page) (e : PageEvent) (s : SessionState) :
  browser (emit page e s) = browser s
  ∧ pages (emit page e s) = pages s
  ∧ currentPageId (emit page e s) = currentPageId s
  ∧ listeners (emit page e s) = listeners s
  ∧ dom (consoleMessages (emit page e s)) = dom (consoleMessages s)
  ∧ dom (networkRequests (emit page e s)) = dom (networkRequests s)
  ∧ (kind_of e = Console → networkRequests (emit page e s) = networkRequests s)
  ∧ (kind_of e ≠ Console → consoleMessages (emit page e s) = consoleMessages s)
  ∧ ((∀ l, l ∈ listeners s → on_page l = page → on_kind l ≠ kind_of e) →
     emit page e s = s).
Proof.
  repeat split.
  - apply emit_browser.
  - apply emit_pages.
  - apply emit_currentPageId.
  - apply emit_listeners.
  - apply emit_dom_console.
  - apply emit_dom_network.
  - intros Hk.
    apply (emit_keeps (λ s', networkRequests s' = networkRequests s)); [|done].
    intros id s' <-. destruct e; try done. simpl. unfold on_console.
    by case_match.
  - intros Hk.
    apply (emit_keeps (λ s', consoleMessages s' = consoleMessages s)); [|done].
    intros id s' <-. destruct e; try done; simpl;
      unfold on_request, on_response; by case_match.
  - apply emit_no_listener.
Qed.

(** ** Events of a page registered by [getOrCreatePage] *)

Lemma push_capped_last {A : Type} (buf : list A) (x : A) :
  ∃ earlier, push_capped buf x = earlier ++ [x].
Proof.
  unfold push_capped. case_decide as Hfull; [|by exists buf].
  destruct buf as [|y buf]; [|by exists buf].
  unfold capacity in Hfull. simpl in Hfull. lia.
Qed.

Lemma dispatch_keeps (P : SessionState → Prop) (page : Page) (e : PageEvent)
    (ls : list Listener) (s : SessionState) :
  (∀ id s, P s → P (handle id e s)) → P s →
  P (foldl (λ s l,
              if decide (on_page l = page ∧ on_kind l = kind_of e)
              then handle (on_newPageId l) e s else s) s ls).
Proof.
  intros Hhandle. revert s. induction ls as [|l ls IH]; intros s Hs; simpl;
    [done|].
  apply IH. case_decide; auto.
Qed.

(** X11: once [getOrCreatePage] has created and registered a page, a
    console message of that page is the last entry of the page's console
    buffer, and a request of that page is the last (pending) record of its
    network buffer. *)
Theorem created_page_events_captured
    (r : Remote) (s s' : SessionState) (page : Page) (id : string) :
  create_page r s = (inr (page, id), s') →
  (∀ type text now,
     ∃ earlier,
       consoleMessages (emit page (ConsoleEvent type text now) s') !! id
       = Some (earlier ++ [{| msg_type := type; msg_text := text;
                              msg_timestamp := now |}]))
  ∧ (∀ url method type,
       ∃ earlier,
         networkRequests (emit page (RequestEvent url method type) s') !! id
         = Some (earlier ++ [{| req_url := url; req_method := method;
                                req_status := 0; req_type := type |}])).
Proof.
  rewrite create_page_opened. destruct (opened_tab r) as [e|tab]; [done|].
  intros [= <- <- <-]. split.
  - intros type text now. unfold emit. cbn [listeners with_listeners].
    rewrite foldl_app.
    match goal with
    | |- context [foldl ?f ?s0 (listeners s)] =>
        set (s1 := foldl f s0 (listeners s));
        assert (page_id (Date_now r) ∈ dom (consoleMessages s1)) as Hdom
    end.
    { apply (dispatch_keeps
               (λ s', page_id (Date_now r) ∈ dom (consoleMessages s'))).
      - intros i s0 Hs0. by rewrite handle_dom_console.
      - simpl. rewrite dom_insert, elem_of_union, elem_of_singleton. by left. }
    clearbody s1. apply elem_of_dom in Hdom as [buf Hbuf].
    simpl. rewrite (decide_False (P := tab = tab ∧ Response = Console))
      by (by intros [_ [=]]).
    rewrite (decide_False (P := tab = tab ∧ Request = Console))
      by (by intros [_ [=]]).
    rewrite (decide_True (P := tab = tab ∧ Console = Console)) by done.
    unfold on_console. rewrite Hbuf. simpl. rewrite lookup_insert_eq.
    destruct (push_capped_last buf {| msg_type := type; msg_text := text;
                                      msg_timestamp := now |}) as [earlier ->].
    by exists earlier.
  - intros url method type. unfold emit. cbn [listeners with_listeners].
    rewrite foldl_app.
    match goal with
    | |- context [foldl ?f ?s0 (listeners s)] =>
        set (s1 := foldl f s0 (listeners s));
        assert (page_id (Date_now r) ∈ dom (networkRequests s1)) as Hdom
    end.
    { apply (dispatch_keeps
               (λ s', page_id (Date_now r) ∈ dom (networkRequests s'))).
      - intros i s0 Hs0. by rewrite handle_dom_network.
      - simpl. rewrite dom_insert, elem_of_union, elem_of_singleton. by left. }
    clearbody s1. apply elem_of_dom in Hdom as [buf Hbuf].
    simpl. rewrite (decide_False (P := tab = tab ∧ Response = Request))
      by (by intros [_ [=]]).
    rewrite (decide_True (P := tab = tab ∧ Request = Request)) by done.
    rewrite (decide_False (P := tab = tab ∧ Console = Request))
      by (by intros [_ [=]]).
    unfold on_request. rewrite Hbuf. simpl. rewrite lookup_insert_eq.
    destruct (push_capped_last buf {| req_url := url; req_method := method;
                                      req_status := 0; req_type := type |})
      as [earlier ->].
    by exists earlier.
Qed.

(** ** select-page *)

(** X12: select-page on a registered identifier makes it current even when
    [page.bringToFront()] rejects and the reply is a 500 failure; on an
    identifier that is not registered (or absent) it replies 404 and changes
    nothing. *)
Theorem select_page_selects_before_focus
    (r : Remote) (pageId : option string) (s : SessionState) :
  (∀ id page,
     pageId = Some id → JsMap.get (pages s) id = Some page →
     select_page r pageId s
     = (match page_bringToFront r page with
        | None => Success id
        | Some e => Failure 500 e
        end,
        with_currentPageId (Some id) s))
  ∧ ((∀ id, pageId = Some id → JsMap.get (pages s) id = None) →
     select_page r pageId s = (not_found, s)).
Proof.
  unfold select_page, handler, await_void. async_unfold. split.
  - intros id page -> Hget. rewrite Hget.
    by destruct (page_bringToFront r page).
  - intros Hnone. destruct pageId as [id|]; [|done].
    by rewrite (Hnone id eq_refl).
Qed.

(** ** new-page *)

Lemma wp_result {A : Type} (m : Async A) Q E s a s0 :
  m s = (inr a, s0) → Q a s0 → wp m Q E s.
Proof. unfold wp. by intros ->. Qed.

(** X13: once the browser is attached and [newPage()] has resolved,
    new-page leaves the page registered and current whatever happens next:
    if [page.goto] rejects, the reply is a 500 failure and the page stays
    registered, under its identifier, as the current page and with two
    empty buffers; nothing else of the session changes.  If [newPage()]
    itself rejects nothing is registered. *)
Theorem new_page_registers_before_goto
    (r : Remote) (url : option string) (s s0 : SessionState) (b : Browser) :
  launchBrowser r s = (inr b, s0) →
  (∀ page,
     browser_newPage r = inr page →
     new_page r url s
     = (match url with
        | Some u =>
            if truthy url
            then match page_goto r page u with
                 | None => Success (page_id (Date_now r), page_url r page)
                 | Some e => Failure 500 e
                 end
            else Success (page_id (Date_now r), page_url r page)
        | None => Success (page_id (Date_now r), page_url r page)
        end,
        register (page_id (Date_now r)) page s0))
  ∧ (∀ page,
       browser_newPage r = inr page →
       let id := page_id (Date_now r) in
       let s' := (new_page r url s).2 in
       pages s' = JsMap.set (pages s0) id page
       ∧ JsMap.get (pages s') id = Some page
       ∧ currentPageId s' = Some id
       ∧ consoleMessages s' = <[id := []]> (consoleMessages s0)
       ∧ networkRequests s' = <[id := []]> (networkRequests s0)
       ∧ consoleMessages s' !! id = Some []
       ∧ networkRequests s' !! id = Some []
       ∧ browser s' = browser s0
       ∧ listeners s' = listeners s0)
  ∧ (∀ e, browser_newPage r = inl e → new_page r url s = (Failure 500 e, s0)).
Proof.
  intros Hlaunch.
  assert (∀ page, browser_newPage r = inr page →
                  (new_page r url s).2
                  = register (page_id (Date_now r)) page s0) as Hstate.
  { intros page Hnew. unfold new_page. rewrite Hnew.
    apply (wp_handler _ (λ x, x.2 = _)).
    apply wp_bind. eapply wp_result; [done|].
    wp_run; simplify_eq; done. }
  split; [|split].
  - intros page Hnew. unfold new_page. rewrite Hnew.
    apply (wp_handler _ (λ x, x = (_, _))).
    apply wp_bind. eapply wp_result; [done|].
    wp_run; simplify_eq; done.
  - intros page Hnew id s'. subst s'. rewrite (Hstate page Hnew). simpl.
    rewrite JsMap_get_set, !lookup_insert_eq. done.
  - intros e Hnew. unfold new_page. rewrite Hnew.
    apply (wp_handler _ (λ x, x = (_, _))).
    apply wp_bind. eapply wp_result; [done|].
    wp_run; simplify_eq; done.
Qed.

(** ** close-page: not found, and closing another page *)

(** X14: close-page replies 404 "Page not found" exactly when its target
    ([pageId], else [currentPageId]) names no registered page; in particular
    an unknown explicit identifier is not replaced by the current page. *)
Theorem close_page_not_found_iff
    (r : Remote) (pageId : option string) (s : SessionState) :
  (close_page r pageId s).1 = not_found
  ↔ ∀ id page, ¬ names_page s (js_or pageId (currentPageId s)) id page.
Proof.
  unfold close_page, handler, await_void, names_page. async_unfold. simpl.
  destruct (js_or pageId (currentPageId s)) as [i|] eqn:Hid.
  - unfold truthy. destruct (bool_decide (i ≠ "")) eqn:Hi.
    + apply bool_decide_eq_true_1 in Hi.
      destruct (JsMap.get (pages s) i) as [page|] eqn:Hget.
      * split.
        -- destruct (page_close r page); simpl; [by intros [=]|].
           by case_decide; simpl; intros [=].
        -- intros Hnone. by destruct (Hnone i page).
      * split; [|done]. intros _ id page ([= <-] & _ & Hget'). congruence.
    + apply bool_decide_eq_false_1 in Hi.
      split; [|done]. intros _ id page ([= <-] & Hne & _). done.
  - split; [|done]. intros _ id page (? & _). done.
Qed.

(** X15: closing a registered page other than the current one removes its
    registry entry and its two buffers and changes nothing else:
    [currentPageId] stays. *)
Theorem close_page_other_keeps_current
    (r : Remote) (pageId : option string) (s : SessionState)
    (id current : string) (page : Page) :
  js_or pageId (currentPageId s) = Some id → id ≠ "" →
  JsMap.get (pages s) id = Some page →
  page_close r page = None →
  currentPageId s = Some current → current ≠ id →
  close_page r pageId s
  = (Success (),
     with_networkRequests (delete id (networkRequests s))
       (with_consoleMessages (delete id (consoleMessages s))
          (with_pages (JsMap.delete (pages s) id) s))).
Proof.
  intros Hid Hne Hget Hclose Hcur Hother.
  unfold close_page, handler, await_void. async_unfold. simpl.
  rewrite Hid. unfold truthy. rewrite bool_decide_eq_true_2 by done.
  rewrite Hget, Hclose. simpl.
  rewrite decide_False by congruence. done.
Qed.

(** ** Commands on a healthy current page *)

Lemma run_pages_need_browser cs : pages_need_browser (run cs).
Proof. apply run_keeps; [done|apply exec_pages_need_browser]. Qed.

Lemma launchBrowser_connected r s b :
  browser s = Some b → launchBrowser r s = (inr b, s).
Proof. intros Hb. unfold launchBrowser. async_unfold. by rewrite Hb. Qed.

Lemma getOrCreatePage_current_hit r s b id page :
  browser s = Some b →
  names_page s (currentPageId s) id page → isPageValid r page = true →
  getOrCreatePage r None s = (inr (page, id), s).
Proof.
  intros Hb Hname Hvalid. unfold getOrCreatePage.
  unfold mbind at 1. unfold Async_bind at 1.
  rewrite (launchBrowser_connected r s b Hb).
  unfold mbind at 1. unfold Async_bind at 1.
  rewrite (resolve_explicit_miss r None s s)
    by (left; split; [by intros ? ? (? & _)|done]).
  unfold mbind at 1. unfold Async_bind at 1.
  by rewrite (resolve_current_hit r s id page).
Qed.

(** X16: in any state reached by handler runs taken one at a time, if the
    current page still validates, a page command runs on that page and
    leaves the session state exactly as it was: no tab is opened, nothing
    is registered. *)
Theorem page_command_reuses_current
    (cs : list Command) (r : Remote) (id : string) (page : Page) :
  let s := run cs in
  currentPageId s = Some id →
  JsMap.get (pages s) id = Some page →
  isPageValid r page = true →
  page_command r s
  = (match page_operation r page with
     | None => Success id
     | Some e => Failure 500 e
     end, s).
Proof.
  intros s Hcur Hget Hvalid.
  assert (id ≠ "") as Hne.
  { assert (truthy (Some id) = true) as Htruthy.
    { apply (run_keys_truthy cs), JsMap_get_is_Some. by eexists. }
    by apply bool_decide_eq_true_1 in Htruthy. }
  destruct (browser s) as [b|] eqn:Hb.
  2:{ destruct (run_pages_need_browser cs Hb) as [Hp _]. fold s in Hp.
      by rewrite Hp in Hget. }
  unfold page_command, handler.
  unfold mbind at 1. unfold Async_bind at 1.
  rewrite (getOrCreatePage_current_hit r s b id page) by done.
  simpl. by destruct (page_operation r page).
Qed.

(** ** Recovery after a dropped connection *)

(** X17: after a [disconnected] event, the next page command that can
    attach and obtain a tab starts over with that single page: it is the
    only registered page and the current one, it has fresh empty buffers
    and the three subscriptions; earlier buffers and subscriptions are
    still there. *)
Theorem page_command_after_disconnect
    (s : SessionState) (r : Remote) (b : Browser) (page : Page) :
  connect_loop r 0 2 = inr (Some b) →
  opened_tab r = inr page →
  let id := page_id (Date_now r) in
  let s' := exec (exec s Disconnected) (PageCommand r) in
  browser s' = Some b
  ∧ pages s' = [(id, page)]
  ∧ currentPageId s' = Some id
  ∧ consoleMessages s' = <[id := []]> (consoleMessages s)
  ∧ networkRequests s' = <[id := []]> (networkRequests s)
  ∧ listeners s' = listeners s ++ subscriptions page id.
Proof.
  intros Hconnect Hopen id s'. subst s'.
  rewrite (exec_blocks _ (PageCommand r)).
  cbn [exec blocks_of]. unfold resolution_blocks, creation_blocks.
  cbn [on_disconnected browser with_currentPageId with_pages with_browser
       currentPageId].
  rewrite Hconnect, Hopen. done.
Qed.

Lemma trim_no_space s : no_space s → trim s = s.
Proof.
  unfold trim. intros Hs.
  assert (trim_start s = s) as ->.
  { destruct s as [|c rest]; [done|]. simpl. by destruct Hs as [-> _]. }
  induction s as [|c rest IH]; [done|]. destruct Hs as [Hc Hrest]. simpl.
  rewrite IH by done. rewrite Hc. by destruct rest.
Qed.

Lemma pretty_N_char_digit d :
  (d < 10)%N →
  is_digit (pretty_N_char d) = true ∧ is_space (pretty_N_char d) = false
  ∧ digit_value (pretty_N_char d) = Z.of_N d.
Proof.
  intros Hd.
  assert (d = 0 ∨ d = 1 ∨ d = 2 ∨ d = 3 ∨ d = 4 ∨ d = 5 ∨ d = 6 ∨ d = 7
          ∨ d = 8 ∨ d = 9)%N as Hcases by lia.
  decompose [or] Hcases; subst; done.
Qed.

Lemma pretty_N_go_no_space x s : no_space s → no_space (pretty_N_go x s).
Proof.
  revert s. induction (N.lt_wf_0 x) as [x _ IH]; intros s Hs.
  assert (x = 0 ∨ 0 < x)%N as [->|Hx] by lia; [by rewrite pretty_N_go_0|].
  rewrite pretty_N_go_step by done. apply IH; [by apply N.div_lt|].
  split; [|done]. apply pretty_N_char_digit. by apply N.mod_lt.
Qed.

Lemma read_digits_pretty_N_go x s :
  (0 < x)%N →
  ∃ k : Z, (0 ≤ k)%Z ∧ ∀ acc seen,
    read_digits acc seen (pretty_N_go x s)
    = read_digits (acc * 10 ^ k + Z.of_N x) true s.
Proof.
  revert s. induction (N.lt_wf_0 x) as [x _ IH]; intros s Hx.
  rewrite pretty_N_go_step by done.
  destruct (pretty_N_char_digit (x `mod` 10)) as (Hd & _ & Hv);
    [by apply N.mod_lt|].
  destruct (N.eq_0_gt_0_cases (x `div` 10)) as [Hz|Hpos].
  - rewrite Hz, pretty_N_go_0. exists 1%Z. split; [lia|]. intros acc seen.
    simpl. rewrite Hd, Hv. f_equal. rewrite Z.pow_1_r.
    pose proof (N.div_mod x 10). lia.
  - destruct (IH (x `div` 10)%N) with (s := String (pretty_N_char (x `mod` 10)) s)
      as (k & Hk & Hread); [by apply N.div_lt|done|].
    exists (k + 1)%Z. split; [lia|]. intros acc seen.
    rewrite Hread. simpl. rewrite Hd, Hv. f_equal.
    rewrite Z.pow_add_r, Z.pow_1_r by lia.
    pose proof (N.div_mod x 10). nia.
Qed.

Lemma parseInt_pretty_positive (p : positive) :
  read_digits 0 false (pretty (Npos p)) = Some (Zpos p).
Proof.
  unfold pretty, pretty_N. rewrite decide_False by done.
  destruct (read_digits_pretty_N_go (Npos p) "") as (k & _ & ->); [lia|].
  simpl. done.
Qed.

Lemma pretty_N_go_head x s :
  (0 < x)%N →
  ∃ c rest, pretty_N_go x s = String c rest ∧ is_digit c = true.
Proof.
  revert s. induction (N.lt_wf_0 x) as [x _ IH]; intros s Hx.
  rewrite pretty_N_go_step by done.
  destruct (N.eq_0_gt_0_cases (x `div` 10)) as [Hz|Hpos].
  - rewrite Hz, pretty_N_go_0. eexists _, _. split; [done|].
    apply pretty_N_char_digit. by apply N.mod_lt.
  - apply IH; [by apply N.div_lt|done].
Qed.

Lemma is_digit_not_sign c :
  is_digit c = true →
  is_space c = false ∧ c ≠ "-"%char ∧ c ≠ "+"%char.
Proof.
  unfold is_digit, is_space. intros [Hlo Hhi]%bool_decide_eq_true_1.
  split; [|split].
  - apply bool_decide_eq_false_2. rewrite !elem_of_cons, elem_of_nil. lia.
  - intros ->. vm_compute in Hlo. lia.
  - intros ->. vm_compute in Hlo. lia.
Qed.

Lemma parseInt_digits s c rest :
  s = String c rest → is_digit c = true →
  parseInt s = read_digits 0 false s.
Proof.
  intros -> Hc. destruct (is_digit_not_sign c Hc) as (Hs & Hm & Hp).
  unfold parseInt. cbn [trim_start]. rewrite Hs.
  destruct c as [[] [] [] [] [] [] [] []]; try done.
Qed.

Lemma no_space_pretty_Z (z : Z) : no_space (pretty z).
Proof.
  destruct z as [|p|p]; unfold pretty, pretty_Z; [done|..].
  - unfold pretty, pretty_positive, pretty, pretty_N.
    rewrite decide_False by done. by apply pretty_N_go_no_space.
  - simpl. split; [done|]. unfold pretty, pretty_positive, pretty, pretty_N.
    rewrite decide_False by done. by apply pretty_N_go_no_space.
Qed.

Lemma parseInt_pretty_Z (z : Z) : parseInt (pretty z) = Some z.
Proof.
  destruct z as [|p|p]; unfold pretty, pretty_Z; [done|..].
  - unfold pretty, pretty_positive.
    destruct (pretty_N_go_head (Npos p) "") as (c & rest & Heq & Hc); [lia|].
    rewrite (parseInt_digits _ c rest); [apply parseInt_pretty_positive|..].
    + unfold pretty, pretty_N. by rewrite decide_False.
    + done.
  - change ("-" +:+ pretty p) with (String "-"%char (pretty (Npos p))).
    unfold parseInt. cbn [trim_start].
    replace (is_space "-") with false by done.
    by rewrite parseInt_pretty_positive.
Qed.

Lemma parseInt_trim_String (z : Z) :
  parseInt (trim (String_of_number (Some z))) = Some z.
Proof.
  simpl. rewrite trim_no_space by apply no_space_pretty_Z.
  apply parseInt_pretty_Z.
Qed.

Lemma getDaemonPort_startDaemon pid port d :
  getDaemonPort (startDaemon pid port d) = port.
Proof.
  unfold getDaemonPort, startDaemon. cbn [PORT_FILE].
  destruct port as [z|]; [apply parseInt_trim_String|done].
Qed.

Lemma isDaemonRunning_startDaemon signal0 pid port d :
  isDaemonRunning signal0 (startDaemon pid port d) = signal0 pid.
Proof.
  unfold isDaemonRunning, startDaemon. cbn [PID_FILE].
  by rewrite parseInt_trim_String.
Qed.

(** X18: [parseInt(String(n).trim(), 10)] is [n] for every safe integer
    [n], and [NaN] for [String(NaN)]. *)
Theorem parseInt_String_round_trip (z : Z) :
  safe_integer z →
  parseInt (trim (String_of_number (Some z))) = Some z
  ∧ parseInt (String_of_number (Some z)) = Some z
  ∧ parseInt (trim (String_of_number None)) = None.
Proof.
  intros _. split; [apply parseInt_trim_String|]. split; [|done].
  simpl. apply parseInt_pretty_Z.
Qed.

(** X19: after the daemon of process [pid] has written its liveness files
    for [port], [getDaemonPort] reads [port] back and [isDaemonRunning] is
    the answer of the liveness probe for [pid]; after [/shutdown] removed
    them the daemon is not running and the port is the default one. *)
Theorem liveness_files_round_trip
    (pid : Z) (port : option Z) (signal0 : Z → bool) (d : ConfigDir) :
  safe_integer pid → (∀ z, port = Some z → safe_integer z) →
  getDaemonPort (startDaemon pid port d) = port
  ∧ isDaemonRunning signal0 (startDaemon pid port d) = signal0 pid
  ∧ isDaemonRunning signal0 (shutdown_files (startDaemon pid port d)) = false
  ∧ getDaemonPort (shutdown_files (startDaemon pid port d))
    = Some DEFAULT_PORT.
Proof.
  intros _ _. split; [apply getDaemonPort_startDaemon|].
  split; [apply isDaemonRunning_startDaemon|]. done.
Qed.

(** X20: when no daemon is running and a daemon script exists, the command
    [ensureDaemon] spawns makes the daemon listen on port 9234; once that
    daemon has written its files, [ensureDaemon] returns 9234, and the next
    call returns 9234 again without spawning. *)
Theorem ensureDaemon_starts_on_default_port
    (daemonPath tsPath : string) (i : Install) (signal0 signal0' : Z → bool)
    (d : ConfigDir) (pid : Z) (command : string * list string) :
  isDaemonRunning signal0 d = false →
  spawn_command daemonPath tsPath i DEFAULT_PORT = Some command →
  safe_integer pid → signal0' pid = true →
  let port := daemon_port (daemon_argv2 command) in
  let d' := startDaemon pid port d in
  port = Some DEFAULT_PORT
  ∧ ensureDaemon daemonPath tsPath i signal0 d (signal0', d')
    = (inr (Some DEFAULT_PORT), Some command)
  ∧ ∀ later, ensureDaemon daemonPath tsPath i signal0' d' later
             = (inr (Some DEFAULT_PORT), None).
Proof.
  intros Hdown Hcmd _ Halive port d'.
  assert (port = Some DEFAULT_PORT) as Hport.
  { unfold spawn_command in Hcmd. subst port.
    destruct (daemonPath_exists i); [|destruct (tsPath_exists i)];
      simplify_eq; done. }
  pose proof (getDaemonPort_startDaemon pid port d) as Hread.
  pose proof (isDaemonRunning_startDaemon signal0' pid port d) as Hup.
  fold d' in Hread, Hup. rewrite Halive in Hup.
  split; [done|]. unfold ensureDaemon. rewrite Hdown, Hcmd. cbn [fst snd].
  rewrite Hup. split; [done|]. intros later. by rewrite Hread, Hport.
Qed.

(** X21: [ensureDaemon] spawns nothing while a daemon is running, and
    nothing when neither daemon script exists (it throws "Daemon not
    found"); what it spawns is [node daemon.js 9234] if that file exists,
    else [npx tsx daemon.ts 9234]; a port returned after spawning is 9234. *)
Theorem ensureDaemon_spawns_only_when_needed
    (daemonPath tsPath : string) (i : Install) (signal0 : Z → bool)
    (d : ConfigDir) (later : (Z → bool) * ConfigDir) :
  (isDaemonRunning signal0 d = true →
   ensureDaemon daemonPath tsPath i signal0 d later
   = (inr (getDaemonPort d), None))
  ∧ (isDaemonRunning signal0 d = false →
     daemonPath_exists i = false → tsPath_exists i = false →
     ensureDaemon daemonPath tsPath i signal0 d later
     = (inl "Error: Daemon not found. Run npm run build first.", None))
  ∧ (∀ command,
       (ensureDaemon daemonPath tsPath i signal0 d later).2 = Some command →
       isDaemonRunning signal0 d = false
       ∧ (daemonPath_exists i = true →
          command = ("node", [daemonPath; "9234"]))
       ∧ (daemonPath_exists i = false →
          command = ("npx", ["tsx"; tsPath; "9234"])))
  ∧ (∀ port,
       (ensureDaemon daemonPath tsPath i signal0 d later).1 = inr port →
       (ensureDaemon daemonPath tsPath i signal0 d later).2 ≠ None →
       port = Some DEFAULT_PORT).
Proof.
  unfold ensureDaemon, spawn_command.
  destruct (isDaemonRunning signal0 d); simpl.
  - repeat split; done.
  - destruct (daemonPath_exists i); [|destruct (tsPath_exists i)]; simpl;
      destruct (isDaemonRunning later.1 later.2); simpl;
      repeat split; try done; intros; simplify_eq; done.
Qed.

Lemma indexOf_absent {A : Type} (arr : list (Ref * A)) (x : Ref) :
  x ∉ arr.*1 → indexOf arr x = (-1)%Z.
Proof.
  induction arr as [|[y a] rest IH]; [done|].
  rewrite fmap_cons. intros [Hne Hrest]%not_elem_of_cons. simpl in *.
  rewrite decide_False by done. by rewrite IH.
Qed.

Lemma with_cooldown_refs next onCooldown worthReplying c :
  c ∈ with_cooldown next onCooldown worthReplying → next ≤ c.1.
Proof.
  unfold with_cooldown. intros (i & m & -> & _)%elem_of_lookup_imap. simpl. lia.
Qed.

Section two_classes.
Context {A : Type} (late : A → bool) (cmp : A → A → Z).

Lemma insert_sorted_late x earlies lates :
  late x = true →
  Forall (λ y, cmp y x ≤ 0)%Z (earlies ++ lates) →
  insert_sorted cmp x (earlies ++ lates) = earlies ++ lates ++ [x].
Proof.
  intros _. rewrite app_assoc. generalize (earlies ++ lates) as l.
  induction 1 as [|y l Hy _ IH]; simpl; [done|].
  by rewrite decide_True, IH.
Qed.

Lemma insert_sorted_early x earlies lates :
  Forall (λ y, cmp y x ≤ 0)%Z earlies →
  Forall (λ y, ¬ cmp y x ≤ 0)%Z lates →
  insert_sorted cmp x (earlies ++ lates) = earlies ++ x :: lates.
Proof.
  intros Hearly Hlate. induction Hearly as [|y l Hy _ IH]; simpl.
  - destruct Hlate as [|y l Hy _]; simpl; [done|]. by rewrite decide_False.
  - by rewrite decide_True, IH.
Qed.

Hypothesis cmp_late : ∀ a b,
  cmp a b = if decide (late a ≠ late b) then (if late a then 1 else -1)%Z
            else 0%Z.

Lemma sort_two_classes_from seen arr :
  foldl (λ sorted x, insert_sorted cmp x sorted)
    (filter (λ a, late a = false) seen ++ filter (λ a, late a = true) seen)
    arr
  = filter (λ a, late a = false) (seen ++ arr)
    ++ filter (λ a, late a = true) (seen ++ arr).
Proof.
  revert seen. induction arr as [|x arr IH]; intros seen; simpl.
  - by rewrite app_nil_r.
  - replace (seen ++ x :: arr) with ((seen ++ [x]) ++ arr)
      by (by rewrite <- app_assoc).
    rewrite <- IH. f_equal. rewrite !filter_app.
    destruct (late x) eqn:Hx.
    + rewrite insert_sorted_late; [|done|].
      * rewrite (filter_cons_False (λ a, late a = false)) by (by rewrite Hx).
        rewrite (filter_cons_True (λ a, late a = true)) by done.
        rewrite !filter_nil, app_nil_r. done.
      * apply Forall_forall. intros y _. rewrite cmp_late, Hx.
        case_decide; [|lia]. destruct (late y); [done|lia].
    + rewrite insert_sorted_early.
      * rewrite (filter_cons_True (λ a, late a = false)) by done.
        rewrite (filter_cons_False (λ a, late a = true)) by (by rewrite Hx).
        rewrite !filter_nil, app_nil_r, <- app_assoc. done.
      * apply Forall_forall. intros y [Hy _]%list_elem_of_filter.
        rewrite cmp_late, Hx, Hy. rewrite decide_False by (by intros ?). lia.
      * apply Forall_forall. intros y [Hy _]%list_elem_of_filter.
        rewrite cmp_late, Hx, Hy. rewrite decide_True by done. lia.
Qed.

Lemma sort_two_classes arr :
  Array_sort cmp arr
  = filter (λ a, late a = false) arr ++ filter (λ a, late a = true) arr.
Proof. apply (sort_two_classes_from []). Qed.

Lemma find_early_first arr :
  find (λ a, negb (late a))
    (filter (λ a, late a = false) arr ++ filter (λ a, late a = true) arr)
  = find (λ a, negb (late a)) arr.
Proof.
  induction arr as [|x arr IH]; [done|].
  destruct (late x) eqn:Hx.
  - rewrite (filter_cons_False (λ a, late a = false)) by (by rewrite Hx).
    rewrite (filter_cons_True (λ a, late a = true)) by done.
    cbn [find]. rewrite Hx. cbn [negb]. rewrite <- IH.
    generalize (filter (λ a, late a = false) arr) as earlies.
    induction earlies as [|y earlies IHe]; simpl; [by rewrite Hx|].
    by destruct (negb (late y)).
  - rewrite (filter_cons_True (λ a, late a = false)) by done.
    simpl. by rewrite Hx.
Qed.
End two_classes.

(** X22: of the messages worth replying to, [processMessages] picks the
    first one, in the order they were fetched, whose author is not on
    cooldown, and none if all are: the comparator's tie-break looks the
    copies made by [map] up in [worthReplying], where [indexOf] finds none
    of them, so the stable sort keeps the fetched order. *)
Theorem pick_message_first_off_cooldown
    (next : Ref) (onCooldown : nat → bool)
    (worthReplying : list (Ref * Message)) :
  (∀ x, x ∈ worthReplying.*1 → x < next) →
  pick_message next onCooldown worthReplying
  = snd <$> find (λ m, negb m.2.2)
              (with_cooldown next onCooldown worthReplying).
Proof.
  intros Hfresh. unfold pick_message. f_equal.
  set (copies := with_cooldown next onCooldown worthReplying).
  set (cmp := λ a b : Ref * (Message * bool),
         if decide (a.2.2 ≠ b.2.2) then (if a.2.2 then 1 else -1)%Z
         else 0%Z).
  assert (Array_sort (by_cooldown worthReplying) copies
          = Array_sort cmp copies) as ->.
  { unfold Array_sort.
    assert (∀ acc, Forall (λ c, next ≤ c.1) acc →
              Forall (λ c, next ≤ c.1) copies →
              foldl (λ sorted x, insert_sorted (by_cooldown worthReplying) x sorted)
                acc copies
              = foldl (λ sorted x, insert_sorted cmp x sorted) acc copies)
      as Hsame.
    { generalize copies. intros l. induction l as [|x l IH];
        intros acc Hacc Hl; simpl; [done|].
      apply Forall_cons in Hl as [Hx Hl].
      assert (insert_sorted (by_cooldown worthReplying) x acc
              = insert_sorted cmp x acc) as Hins.
      { clear IH. induction Hacc as [|y acc Hy _ IHacc]; simpl; [done|].
        assert (by_cooldown worthReplying y x = cmp y x) as ->.
        { unfold by_cooldown, cmp. case_decide; [done|].
          rewrite !indexOf_absent; [done|..];
            intros Hin%Hfresh; simpl in *; lia. }
        by rewrite IHacc. }
      rewrite Hins. apply IH; [|done].
      clear IH Hins. induction Hacc as [|y acc Hy Hacc IHacc]; simpl.
      - by apply Forall_singleton.
      - case_decide; repeat constructor; done. }
    apply Hsame; [done|]. apply Forall_forall.
    intros c Hc. by eapply with_cooldown_refs. }
  rewrite (sort_two_classes (λ m, m.2.2) cmp) by done.
  apply (find_early_first (λ m : Ref * (Message * bool), m.2.2)).
Qed.

(** ** The [stop] and [status] commands *)


(** ** The further properties at sample inputs *)

Lemma launchBrowser_idempotent_witness :
  with_browser (Some 0) state = with_browser (Some 0) state
  ∧ launchBrowser (crashed 1) (with_browser (Some 0) state)
    = (inr 0, with_browser (Some 0) state).
Proof.
  apply (launchBrowser_idempotent (chrome 1000 1) (crashed 1) state).
  reflexivity.
Defined.

Lemma launchBrowser_error_paths_witness :
  (launchBrowser read_only state
   = (inl (Thrown "Error: EACCES: permission denied, mkdir"), state)
   ∧ page_command read_only state
     = (Failure 500 "Error: EACCES: permission denied, mkdir", state))
  ∧ (launchBrowser no_chrome state
     = (inl (Uncaught "Error: spawn /usr/bin/google-chrome ENOENT"), state)
     ∧ page_command no_chrome state = (NoReply, state))
  ∧ (launchBrowser refusing state = (inl (Thrown connect_failed), state)
     ∧ page_command refusing state = (Failure 500 connect_failed, state)).
Proof.
  split; [|split].
  - apply (launchBrowser_error_paths read_only state); reflexivity.
  - apply (proj2 (proj2 (launchBrowser_error_paths no_chrome state)
                    eq_refl eq_refl)).
    intros [=].
  - apply (proj2 (proj2 (launchBrowser_error_paths refusing state)
                    eq_refl eq_refl)).
    intros [=].
Defined.

Lemma registered_pages_have_buffers_witness :
  (∃ messages, consoleMessages (run two_pages) !! "page_1000" = Some messages)
  ∧ (∃ requests, networkRequests (run two_pages) !! "page_1000" = Some requests).
Proof.
  apply (proj1 (registered_pages_have_buffers two_pages) "page_1000").
  vm_compute. reflexivity.
Defined.

Lemma health_disconnected_no_pages_witness :
  (health (run [PageCommand (chrome 1000 1); Disconnected])).2 = 0
  ∧ currentPageId (run [PageCommand (chrome 1000 1); Disconnected]) = None
  ∧ pages (run [PageCommand (chrome 1000 1); Disconnected]) = [].
Proof.
  apply (health_disconnected_no_pages
           [PageCommand (chrome 1000 1); Disconnected]).
  vm_compute. reflexivity.
Defined.

Lemma buffer_removed_only_by_close_page_witness :
  ∃ r pageId page,
    ClosePage (chrome 3000 3) None = ClosePage r pageId
    ∧ js_or pageId (currentPageId (run two_pages)) = Some "page_2000"
    ∧ JsMap.get (pages (run two_pages)) "page_2000" = Some page
    ∧ page_close r page = None.
Proof.
  apply (buffer_removed_only_by_close_page (run two_pages)
           (ClosePage (chrome 3000 3) None) "page_2000").
  left. split; vm_compute; [discriminate|reflexivity].
Defined.

Lemma console_log_keeps_latest_witness :
  consoleMessages
    (on_console_all "page_1000" [("log", "a", 2%Z); ("warn", "b", 3%Z)]
       (run full_console)) !! "page_1000"
  = Some (drop (length (replicate 1000 tick_message) + 2 - 1000)
            (replicate 1000 tick_message
             ++ (console_entry <$> [("log", "a", 2%Z); ("warn", "b", 3%Z)]))).
Proof.
  apply (console_log_keeps_latest full_console "page_1000"
           [("log", "a", 2%Z); ("warn", "b", 3%Z)]
           (replicate 1000 tick_message)).
  vm_compute. reflexivity.
Defined.

Lemma response_resolves_one_pending_witness :
  ∃ requests',
    networkRequests
      (on_response "page_1000" "http://localhost/api" 200 two_pending)
      !! "page_1000" = Some requests'
    ∧ req_url <$> requests' = req_url <$> [api_pending; api_pending]
    ∧ req_method <$> requests' = req_method <$> [api_pending; api_pending]
    ∧ req_type <$> requests' = req_type <$> [api_pending; api_pending]
    ∧ (200%Z ≠ 0%Z →
       pending_count "http://localhost/api" requests'
       = pending_count "http://localhost/api" [api_pending; api_pending] - 1)
    ∧ (200%Z = 0%Z → requests' = [api_pending; api_pending])
    ∧ (∀ url', url' ≠ "http://localhost/api" →
         pending_count url' requests'
         = pending_count url' [api_pending; api_pending]).
Proof.
  apply (response_resolves_one_pending two_pending "page_1000"
           "http://localhost/api" 200 [api_pending; api_pending]).
  vm_compute. reflexivity.
Defined.

Lemma events_change_buffers_only_witness :
  emit 5 tick (run two_pages) = run two_pages.
Proof.
  destruct (events_change_buffers_only 5 tick (run two_pages))
    as (_ & _ & _ & _ & _ & _ & _ & _ & Hnone).
  apply Hnone. intros l Hl Hpage.
  assert (Forall (λ l, on_page l ≠ 5) (listeners (run two_pages))) as Hall
    by (vm_compute; repeat constructor; discriminate).
  rewrite Forall_forall in Hall. by destruct (Hall l Hl).
Defined.

Lemma created_page_events_captured_witness :
  ∃ earlier,
    consoleMessages
      (emit 1 (ConsoleEvent "log" "hi" 7) (create_page (chrome 1000 1) state).2)
      !! "page_1000"
    = Some (earlier ++ [{| msg_type := "log"; msg_text := "hi";
                           msg_timestamp := 7 |}]).
Proof.
  apply (proj1 (created_page_events_captured (chrome 1000 1) state
                  (create_page (chrome 1000 1) state).2 1 "page_1000"
                  ltac:(vm_compute; reflexivity))).
Defined.

Lemma select_page_selects_before_focus_witness :
  select_page (unreachable 3000 3) (Some "page_1000") (run two_pages)
  = (Failure 500 "Error: Protocol error (Page.bringToFront)",
     with_currentPageId (Some "page_1000") (run two_pages)).
Proof.
  apply (proj1 (select_page_selects_before_focus (unreachable 3000 3)
                  (Some "page_1000") (run two_pages)) "page_1000" 1).
  - reflexivity.
  - vm_compute. reflexivity.
Defined.

Lemma new_page_registers_before_goto_witness :
  new_page (unreachable 2000 2) (Some "http://nowhere.invalid/") state
  = (Failure 500 "Error: net::ERR_NAME_NOT_RESOLVED",
     register "page_2000" 2 (with_browser (Some 0) state)).
Proof.
  apply (proj1 (new_page_registers_before_goto (unreachable 2000 2)
                  (Some "http://nowhere.invalid/") state
                  (with_browser (Some 0) state) 0 ltac:(reflexivity)) 2).
  reflexivity.
Defined.

Lemma close_page_not_found_iff_witness :
  (close_page (chrome 3000 3) (Some "page_9") (run two_pages)).1 = not_found.
Proof.
  apply (close_page_not_found_iff (chrome 3000 3) (Some "page_9")
           (run two_pages)).
  intros id page (Hid & _ & Hget). vm_compute in Hid.
  injection Hid as <-. vm_compute in Hget. discriminate.
Defined.

Lemma close_page_other_keeps_current_witness :
  close_page (chrome 3000 3) (Some "page_1000") (run two_pages)
  = (Success (),
     with_networkRequests (delete "page_1000" (networkRequests (run two_pages)))
       (with_consoleMessages
          (delete "page_1000" (consoleMessages (run two_pages)))
          (with_pages (JsMap.delete (pages (run two_pages)) "page_1000")
             (run two_pages)))).
Proof.
  apply (close_page_other_keeps_current (chrome 3000 3) (Some "page_1000")
           (run two_pages) "page_1000" "page_2000" 1).
  - reflexivity.
  - discriminate.
  - vm_compute. reflexivity.
  - reflexivity.
  - vm_compute. reflexivity.
  - discriminate.
Defined.

Lemma page_command_reuses_current_witness :
  page_command (chrome 5000 9) (run two_pages)
  = (Success "page_2000", run two_pages).
Proof.
  apply (page_command_reuses_current two_pages (chrome 5000 9) "page_2000" 2).
  - vm_compute. reflexivity.
  - vm_compute. reflexivity.
  - reflexivity.
Defined.

Lemma page_command_after_disconnect_witness :
  let s' := exec (exec (run two_pages) Disconnected)
              (PageCommand (chrome 3000 3)) in
  browser s' = Some 0
  ∧ pages s' = [("page_3000", 3)]
  ∧ currentPageId s' = Some "page_3000"
  ∧ consoleMessages s' = <["page_3000" := []]> (consoleMessages (run two_pages))
  ∧ networkRequests s' = <["page_3000" := []]> (networkRequests (run two_pages))
  ∧ listeners s' = listeners (run two_pages) ++ subscriptions 3 "page_3000".
Proof.
  apply (page_command_after_disconnect (run two_pages) (chrome 3000 3) 0 3);
    reflexivity.
Defined.

Lemma ensureDaemon_starts_on_default_port_witness :
  let command := ("node", ["/opt/chrome-cli/dist/daemon.js"; "9234"]) in
  let alive := λ pid : Z, bool_decide (pid = 4242%Z) in
  let d' := startDaemon 4242 (daemon_port (daemon_argv2 command)) no_marker in
  daemon_port (daemon_argv2 command) = Some DEFAULT_PORT
  ∧ ensureDaemon "/opt/chrome-cli/dist/daemon.js" "/opt/chrome-cli/src/daemon.ts"
      built (λ _, false) no_marker (alive, d')
    = (inr (Some DEFAULT_PORT), Some command)
  ∧ ∀ later,
      ensureDaemon "/opt/chrome-cli/dist/daemon.js"
        "/opt/chrome-cli/src/daemon.ts" built alive d' later
      = (inr (Some DEFAULT_PORT), None).
Proof.
  apply (ensureDaemon_starts_on_default_port "/opt/chrome-cli/dist/daemon.js"
           "/opt/chrome-cli/src/daemon.ts" built (λ _, false)
           (λ pid : Z, bool_decide (pid = 4242%Z)) no_marker 4242
           ("node", ["/opt/chrome-cli/dist/daemon.js"; "9234"]));
    try reflexivity.
  unfold safe_integer. lia.
Defined.

Lemma parseInt_String_round_trip_witness :
  parseInt (trim (String_of_number (Some 9234%Z))) = Some 9234%Z
  ∧ parseInt (String_of_number (Some 9234%Z)) = Some 9234%Z
  ∧ parseInt (trim (String_of_number None)) = None.
Proof.
  apply (parseInt_String_round_trip 9234). unfold safe_integer. lia.
Defined.

Lemma liveness_files_round_trip_witness :
  getDaemonPort (startDaemon 4242 (Some 9234%Z) no_marker) = Some 9234%Z
  ∧ isDaemonRunning (λ _, true) (startDaemon 4242 (Some 9234%Z) no_marker)
    = true
  ∧ isDaemonRunning (λ _, true)
      (shutdown_files (startDaemon 4242 (Some 9234%Z) no_marker)) = false
  ∧ getDaemonPort (shutdown_files (startDaemon 4242 (Some 9234%Z) no_marker))
    = Some DEFAULT_PORT.
Proof.
  apply (liveness_files_round_trip 4242 (Some 9234%Z) (λ _, true) no_marker).
  - unfold safe_integer. lia.
  - intros z [= <-]. unfold safe_integer. lia.
Defined.

Lemma ensureDaemon_spawns_only_when_needed_witness :
  ensureDaemon "/opt/chrome-cli/dist/daemon.js" "/opt/chrome-cli/src/daemon.ts"
    {| daemonPath_exists := false; tsPath_exists := false |}
    (λ _, false) no_marker ((λ _, false), no_marker)
  = (inl "Error: Daemon not found. Run npm run build first.", None).
Proof.
  apply (proj1 (proj2 (ensureDaemon_spawns_only_when_needed
                         "/opt/chrome-cli/dist/daemon.js"
                         "/opt/chrome-cli/src/daemon.ts"
                         {| daemonPath_exists := false;
                            tsPath_exists := false |}
                         (λ _, false) no_marker ((λ _, false), no_marker))));
    reflexivity.
Defined.

Lemma pick_message_first_off_cooldown_witness :
  pick_message 3 (λ i, bool_decide (i = 0)) fetched
  = snd <$> find (λ m, negb m.2.2)
              (with_cooldown 3 (λ i, bool_decide (i = 0)) fetched).
Proof.
  apply (pick_message_first_off_cooldown 3 (λ i, bool_decide (i = 0)) fetched).
  intros x Hx.
  assert (Forall (λ x, x < 3) fetched.*1) as Hall
    by (vm_compute; repeat constructor).
  rewrite Forall_forall in Hall. by apply Hall.
Defined.

